(** * Campaign administration service (src/services/campaignService.ts)

    The service is a stateless facade: every method awaits a few calls on
    the backend client (identity lookup, table queries) and turns the
    responses into a result or a thrown [Error].  The methods are embedded
    as programs over those calls, so that they can be run against any
    backend, and against an in-memory data store for the statements that
    speak about rows. *)

From Stdlib Require Import Ascii String.
From stdpp Require Import gmap strings list fin_maps pretty.

(** ** JSON values and objects

    Rows, patches and payloads are plain JavaScript objects that travel as
    JSON.  A member whose value is [undefined] is not serialised, so an
    object is a finite map from member names to defined values, and
    assigning [undefined] to a member removes it. *)

#[warnings="-register-all"]
Inductive value : Type :=
| VNull
| VBool (b : bool)
| VNum (shown : string)   (* a number, kept as the text Number::toString gives *)
| VStr (s : string)
| VArr (items : list value)
| VObj (members : gmap string value).

Abbreviation obj := (gmap string value).

(** [{ ...o, k: v }] where [v] may be [undefined] *)
Definition set_member (k : string) (v : option value) (o : obj) : obj :=
  match v with
  | Some x => <[k := x]> o
  | None => delete k o
  end.

(** [o.k] read as a string, when it holds one *)
Definition str_member (k : string) (o : obj) : option string :=
  match o !! k with
  | Some (VStr s) => Some s
  | _ => None
  end.

(** ToBoolean *)
Definition truthy (v : value) : bool :=
  match v with
  | VNull => false
  | VBool b => b
  | VNum r => negb (bool_decide (r = "0") || bool_decide (r = "NaN"))
  | VStr s => negb (bool_decide (s = EmptyString))
  | VArr _ => true
  | VObj _ => true
  end.

(** ToString, as used by template literals and by the replacement argument
    of [String.prototype.replace] *)
Fixpoint js_string_of (v : value) : string :=
  match v with
  | VNull => "null"
  | VBool true => "true"
  | VBool false => "false"
  | VNum r => r
  | VStr s => s
  | VArr l =>
      String.concat ","
        (map (fun x => match x with VNull => EmptyString | _ => js_string_of x end) l)
  | VObj _ => "[object Object]"
  end.

(** ToString of a member read that may give [undefined] *)
Definition js_string_of_member (v : option value) : string :=
  match v with
  | Some x => js_string_of x
  | None => "undefined"
  end.

(** ** String replacement

    [s.replace(/tok/g, repl)] for a pattern that is a literal, non-empty
    token without capture groups.  The tokens and the dollar patterns are
    ASCII, so the encoding of the other characters plays no part. *)

(** the rest of [s] after [tok], when [s] starts with [tok] *)
Fixpoint strip_prefix (tok s : string) : option string :=
  match tok with
  | EmptyString => Some s
  | String a tok' =>
      match s with
      | EmptyString => None
      | String b s' => if Ascii.eqb a b then strip_prefix tok' s' else None
      end
  end.

(** GetSubstitution for a match without captures: [$$] is a dollar sign,
    [$&] the matched text, [$`] the text before the match, [$'] the text
    after it; any other dollar sign stands for itself. *)
Fixpoint expand_replacement (repl matched before after : string) : string :=
  match repl with
  | EmptyString => EmptyString
  | String c r =>
      if Ascii.eqb c "$"%char then
        match r with
        | EmptyString => String c EmptyString
        | String d r' =>
            if Ascii.eqb d "$"%char then String "$"%char (expand_replacement r' matched before after)
            else if Ascii.eqb d "&"%char then matched +:+ expand_replacement r' matched before after
            else if Ascii.eqb d "`"%char then before +:+ expand_replacement r' matched before after
            else if Ascii.eqb d "'"%char then after +:+ expand_replacement r' matched before after
            else String c (expand_replacement r matched before after)
        end
      else String c (expand_replacement r matched before after)
  end.

(** The scan: [skip] counts the characters of the current match still to
    be passed over, [before] is the part of the subject already scanned. *)
Fixpoint replace_scan (tok repl : string) (skip : nat) (before s : string) : string :=
  match s with
  | EmptyString => EmptyString
  | String c s' =>
      match skip with
      | S k => replace_scan tok repl k (before +:+ String c EmptyString) s'
      | 0 =>
          match strip_prefix tok s with
          | Some after =>
              expand_replacement repl tok before after
              +:+ replace_scan tok repl (String.length tok - 1)
                   (before +:+ String c EmptyString) s'
          | None => String c (replace_scan tok repl 0 (before +:+ String c EmptyString) s')
          end
      end
  end.

Definition js_replace_all (tok repl s : string) : string :=
  replace_scan tok repl 0 EmptyString s.

(** ** The backend client

    The client is imported from [../lib/supabase]; the service uses its
    identity accessor and its table query builder.  An awaited call
    resolves to a response that carries either the data or an error with a
    message: every method below reads the two through
    [const { data, error } = await ...], none asks the builder to throw,
    and none catches.  A failure of the backend therefore reaches a method
    as the [error] member of a response, with [data] being [null]. *)

Inductive response (D : Type) : Type :=
| Success (data : D)
| Failure (message : string).
Arguments Success {D} data.
Arguments Failure {D} message.

(** the [error] member of a response: the message, or [null] *)
Definition error_of {D} (r : response D) : option string :=
  match r with
  | Success _ => None
  | Failure m => Some m
  end.

(** the [data] member of a response: [null] when the call failed *)
Definition data_of {D} (r : response D) : option D :=
  match r with
  | Success d => Some d
  | Failure _ => None
  end.

(** the authenticated user, as far as the service reads it *)
Record user : Type := { user_id : string }.

Inductive verb : Type :=
| Select (columns : string)
| Insert (values : obj)
| Update (values : obj)
| Upsert (values : obj)
| Delete.

(** what the awaited builder resolves to: nothing (a mutation without
    [.select()]), the rows, exactly one row, or at most one row *)
Inductive shape : Type := NoData | Rows | Single | MaybeSingle.

Record query : Type := {
  table : string;
  action : verb;
  filters : list (string * string);
  returns : shape
}.

Definition from (t : string) : query :=
  {| table := t; action := Select "*"; filters := []; returns := Rows |}.
Definition select (columns : string) (q : query) : query :=
  {| table := table q; action := Select columns; filters := filters q; returns := Rows |}.
Definition insert (values : obj) (q : query) : query :=
  {| table := table q; action := Insert values; filters := filters q; returns := NoData |}.
Definition update (values : obj) (q : query) : query :=
  {| table := table q; action := Update values; filters := filters q; returns := NoData |}.
Definition upsert (values : obj) (q : query) : query :=
  {| table := table q; action := Upsert values; filters := filters q; returns := NoData |}.
Definition delete_ (q : query) : query :=
  {| table := table q; action := Delete; filters := filters q; returns := NoData |}.
Definition eq_ (column val : string) (q : query) : query :=
  {| table := table q; action := action q; filters := filters q ++ [(column, val)];
     returns := returns q |}.
(** [.select()] after a mutation: resolve to the rows written *)
Definition returning (q : query) : query :=
  {| table := table q; action := action q; filters := filters q; returns := Rows |}.
Definition single (q : query) : query :=
  {| table := table q; action := action q; filters := filters q; returns := Single |}.
Definition maybeSingle (q : query) : query :=
  {| table := table q; action := action q; filters := filters q; returns := MaybeSingle |}.

Notation "q '.>' f" := (f q) (at level 45, left associativity, only parsing).

Inductive request : Type :=
| AuthGetUser
| Query (q : query).

Definition rows_as (sh : shape) : Type :=
  match sh with
  | NoData => unit
  | Rows => list obj
  | Single => obj
  | MaybeSingle => option obj
  end.

Definition result_of (r : request) : Type :=
  match r with
  | AuthGetUser => user
  | Query q => rows_as (returns q)
  end.

(** ** Asynchronous methods as programs

    A method either returns, throws, or awaits a call and goes on with its
    response. *)

Inductive exn : Type :=
| Error (message : string)
| TypeError.

Inductive prog (A : Type) : Type :=
| Ret (a : A)
| Throw (e : exn)
| Await (r : request) (k : response (result_of r) -> prog A).
Arguments Ret {A} a.
Arguments Throw {A} e.
Arguments Await {A} r k.

Fixpoint prog_bind {A B} (p : prog A) (f : A -> prog B) : prog B :=
  match p with
  | Ret a => f a
  | Throw e => Throw e
  | Await r k => Await r (fun x => prog_bind (k x) f)
  end.

#[global] Instance prog_ret : MRet prog := fun A a => Ret a.
#[global] Instance prog_mbind : MBind prog := fun A B f p => prog_bind p f.

Definition await (r : request) : prog (response (result_of r)) := Await r Ret.

(** ** The service methods *)

(** [userData?.user?.id] *)
Definition user_id_of (r : response user) : option string :=
  user_id <$> data_of r.

(** [id || null] *)
Definition or_null (id : option string) : value :=
  match id with
  | Some s => if truthy (VStr s) then VStr s else VNull
  | None => VNull
  end.

(** [if (error) throw new Error(error.message); return data;] *)
Definition data_or_throw {D} (r : response D) : prog D :=
  match r with
  | Failure m => Throw (Error m)
  | Success d => Ret d
  end.

Definition audit_payload (campaignId : option value) (action : string)
    (performedBy : value) (changes : obj) : obj :=
  set_member "campaign_id" campaignId
    (<["action" := VStr action]>
       (<["performed_by" := performedBy]>
          (<["changes" := VObj changes]> ∅))).

(** The response of the insert is awaited and dropped. [campaignId] is a
    string everywhere but in [createCampaign], which passes [data.id]. *)
Definition logAuditAction (campaignId : option value) (action : string)
    (performedBy : value) (changes : obj) : prog unit :=
  _ ← await (Query (from "campaign_audit_log"
                      .> insert (audit_payload campaignId action performedBy changes)));
  Ret tt.

(** The read queries of the methods below, named so that statements can
    refer to them. *)
Definition campaign_by_id (campaignId : string) : query :=
  from "campaigns" .> select "*" .> eq_ "id" campaignId .> maybeSingle.
Definition messages_of_campaign (campaignId : string) : query :=
  from "campaign_messages" .> select "*" .> eq_ "campaign_id" campaignId.
Definition customer_by_id (customerId : string) : query :=
  from "customers" .> select "*" .> eq_ "id" customerId .> single.
Definition restaurant_by_id (restaurantId : string) : query :=
  from "restaurants" .> select "*" .> eq_ "id" restaurantId .> single.
Definition tags_of_customer (customerId : string) : query :=
  from "customer_tag_assignments" .> select "customer_tags(*)"
    .> eq_ "customer_id" customerId.

Definition getCampaign (campaignId : string) : prog (option obj) :=
  r ← await (Query (campaign_by_id campaignId));
  data_or_throw r.

(** [data || []]: the rows of a successful response are an array *)
Definition getCampaignMessages (campaignId : string) : prog (list obj) :=
  r ← await (Query (messages_of_campaign campaignId));
  data_or_throw r.

Definition createCampaign (campaign : obj) : prog obj :=
  userData ← await AuthGetUser;
  r ← await (Query (from "campaigns"
                      .> insert (set_member "created_by"
                                   (VStr <$> user_id_of userData) campaign)
                      .> returning .> single));
  match r with
  | Failure m => Throw (Error m)
  | Success data =>
      _ ← logAuditAction (data !! "id") "created" (or_null (user_id_of userData)) ∅;
      Ret data
  end.

Definition updateCampaign (campaignId : string) (updates : obj) : prog obj :=
  userData ← await AuthGetUser;
  r ← await (Query (from "campaigns" .> update updates .> eq_ "id" campaignId
                      .> returning .> single));
  match r with
  | Failure m => Throw (Error m)
  | Success data =>
      _ ← logAuditAction (Some (VStr campaignId)) "edited"
            (or_null (user_id_of userData)) updates;
      Ret data
  end.

Definition deleteCampaign (campaignId : string) : prog unit :=
  r ← await (Query (from "campaigns" .> delete_ .> eq_ "id" campaignId));
  match r with
  | Failure m => Throw (Error m)
  | Success _ => Ret tt
  end.

(** [data?.map((item: any) => item.customer_tags) || []]: an entry is
    [None] where the member is missing ([undefined]) *)
Definition getCustomerTags (customerId : string) : prog (list (option value)) :=
  r ← await (Query (tags_of_customer customerId));
  match r with
  | Failure m => Throw (Error m)
  | Success data => Ret (map (fun item : obj => item !! "customer_tags") data)
  end.

(** [{ customer_id: customerId, restaurant_id: restaurantId, ...consent }]:
    the members of [consent] are spread last *)
Definition consent_payload (customerId restaurantId : string) (consent : obj) : obj :=
  consent ∪ (<["customer_id" := VStr customerId]>
               (<["restaurant_id" := VStr restaurantId]> ∅)).

Definition updateCustomerConsent (customerId restaurantId : string) (consent : obj)
    : prog obj :=
  r ← await (Query (from "customer_consent"
                      .> upsert (consent_payload customerId restaurantId consent)
                      .> returning .> single));
  data_or_throw r.

Definition scheduleCampaign (campaignId scheduledAt : string) : prog obj :=
  userData ← await AuthGetUser;
  r ← await (Query (from "campaigns"
                      .> update (<["status" := VStr "scheduled"]>
                                   (<["scheduled_at" := VStr scheduledAt]> ∅))
                      .> eq_ "id" campaignId .> returning .> single));
  match r with
  | Failure m => Throw (Error m)
  | Success data =>
      _ ← logAuditAction (Some (VStr campaignId)) "scheduled"
            (or_null (user_id_of userData)) (<["scheduled_at" := VStr scheduledAt]> ∅);
      Ret data
  end.

Definition cancelCampaign (campaignId : string) : prog obj :=
  userData ← await AuthGetUser;
  r ← await (Query (from "campaigns" .> update (<["status" := VStr "cancelled"]> ∅)
                      .> eq_ "id" campaignId .> returning .> single));
  match r with
  | Failure m => Throw (Error m)
  | Success data =>
      _ ← logAuditAction (Some (VStr campaignId)) "cancelled"
            (or_null (user_id_of userData)) ∅;
      Ret data
  end.

Definition pauseCampaign (campaignId : string) : prog obj :=
  userData ← await AuthGetUser;
  r ← await (Query (from "campaigns" .> update (<["status" := VStr "paused"]> ∅)
                      .> eq_ "id" campaignId .> returning .> single));
  match r with
  | Failure m => Throw (Error m)
  | Success data =>
      _ ← logAuditAction (Some (VStr campaignId)) "paused"
            (or_null (user_id_of userData)) ∅;
      Ret data
  end.

Definition resumeCampaign (campaignId : string) : prog obj :=
  userData ← await AuthGetUser;
  r ← await (Query (from "campaigns" .> update (<["status" := VStr "scheduled"]> ∅)
                      .> eq_ "id" campaignId .> returning .> single));
  match r with
  | Failure m => Throw (Error m)
  | Success data =>
      _ ← logAuditAction (Some (VStr campaignId)) "resumed"
            (or_null (user_id_of userData)) ∅;
      Ret data
  end.

(** *** previewCampaign *)

(** [`${customer.first_name} ${customer.last_name}`] *)
Definition full_name (customer : obj) : string :=
  js_string_of_member (customer !! "first_name") +:+ " "
  +:+ js_string_of_member (customer !! "last_name").

(** [restaurant?.name || ''], converted to the replacement string *)
Definition restaurant_name (restaurant : option obj) : string :=
  match restaurant with
  | Some r =>
      match r !! "name" with
      | Some v => if truthy v then js_string_of v else EmptyString
      | None => EmptyString
      end
  | None => EmptyString
  end.

Definition render_template (customer : obj) (restaurant : option obj)
    (message_template : string) : string :=
  let rendered := message_template in
  let rendered := js_replace_all "{{customer_name}}" (full_name customer) rendered in
  let rendered := js_replace_all "{{restaurant_name}}" (restaurant_name restaurant) rendered in
  let rendered := js_replace_all "{{promo_code}}" "PREVIEW-CODE" rendered in
  rendered.

(** The callback of [messages.map]: [.replace] exists on strings only. *)
Definition render_message (customer : obj) (restaurant : option obj) (msg : obj)
    : prog obj :=
  match msg !! "message_template" with
  | Some (VStr t) =>
      Ret (<["rendered_message" := VStr (render_template customer restaurant t)]> msg)
  | _ => Throw TypeError
  end.

Fixpoint render_messages (customer : obj) (restaurant : option obj) (msgs : list obj)
    : prog (list obj) :=
  match msgs with
  | [] => Ret []
  | msg :: rest =>
      m ← render_message customer restaurant msg;
      ms ← render_messages customer restaurant rest;
      Ret (m :: ms)
  end.

Record preview : Type := {
  campaign : obj;
  messages : list obj;
  customer : obj
}.

Definition previewCampaign (campaignId customerId : string) : prog preview :=
  campaign ← getCampaign campaignId;
  messages ← getCampaignMessages campaignId;
  match campaign, messages with
  | None, _ | _, [] => Throw (Error "Campaign or messages not found")
  | Some campaign, _ :: _ =>
      c ← await (Query (customer_by_id customerId));
      match data_of c with
      | None => Throw (Error "Customer not found")
      | Some customer =>
          r ← await (Query (restaurant_by_id
                              (js_string_of_member (campaign !! "restaurant_id"))));
          renderedMessages ← render_messages customer (data_of r) messages;
          userData ← await AuthGetUser;
          _ ← logAuditAction (Some (VStr campaignId)) "preview"
                (or_null (user_id_of userData)) (<["customer_id" := VStr customerId]> ∅);
          Ret {| campaign := campaign; messages := renderedMessages; customer := customer |}
      end
  end.

(** ** Running a method against a backend

    A backend answers each call from its state.  A run records the calls
    in the order they were awaited, each with the error it resolved to. *)

Inductive outcome (A : Type) : Type :=
| Returned (a : A)
| Thrown (e : exn).
Arguments Returned {A} a.
Arguments Thrown {A} e.

Definition returned {A} (o : outcome A) : bool :=
  match o with
  | Returned _ => true
  | Thrown _ => false
  end.

Record event : Type := { call : request; failed : option string }.

Record execution (S A : Type) : Type := {
  result : outcome A;
  final : S;
  trace : list event
}.
Arguments result {S A} _.
Arguments final {S A} _.
Arguments trace {S A} _.

Definition handler (S : Type) : Type :=
  forall r : request, S -> response (result_of r) * S.

Fixpoint run {S A} (h : handler S) (p : prog A) (s : S) : execution S A :=
  match p with
  | Ret a => {| result := Returned a; final := s; trace := [] |}
  | Throw e => {| result := Thrown e; final := s; trace := [] |}
  | Await r k =>
      let answer := h r s in
      let rest := run h (k answer.1) answer.2 in
      {| result := result rest; final := final rest;
         trace := {| call := r; failed := error_of answer.1 |} :: trace rest |}
  end.

(** the payload of an insert into the audit log *)
Definition audit_insert_of (e : event) : option obj :=
  match call e with
  | Query q =>
      match action q with
      | Insert v => if bool_decide (table q = "campaign_audit_log") then Some v else None
      | _ => None
      end
  | AuthGetUser => None
  end.

Definition audit_inserts (tr : list event) : list obj :=
  omap audit_insert_of tr.

(** a call that changes rows of table [t] *)
Definition writes_to (t : string) (e : event) : bool :=
  match call e with
  | Query q =>
      match action q with
      | Select _ => false
      | _ => bool_decide (table q = t)
      end
  | AuthGetUser => false
  end.

(** ** An in-memory data store *)

(** Modelled from the spec: the DataStore collaborator ([../lib/supabase],
    a hosted relational store, is not among the sources).  Tables hold rows;
    [select] reads the rows that pass the equality filters, [insert] adds a
    row with a server-assigned identity and timestamps, [update] merges a
    patch into the rows that pass the filters, [upsert] merges onto the row
    with the same natural key or creates it, [delete] removes rows; a
    mutation whose outcome does not fit the requested shape is not applied.
    Any call may instead fail with a message of the store ([faults]). *)
Record store : Type := {
  tables : gmap string (list obj);
  session : option user;
  next_id : N;
  clock : string;
  faults : list (option string)
}.

(** the rows of a table; a table never written is empty *)
Definition rows_of (t : string) (s : store) : list obj :=
  default [] (tables s !! t).

Definition with_faults (f : list (option string)) (s : store) : store :=
  {| tables := tables s; session := session s; next_id := next_id s;
     clock := clock s; faults := f |}.

Definition with_rows (t : string) (rows : list obj) (s : store) : store :=
  {| tables := <[t := rows]> (tables s); session := session s;
     next_id := N.succ (next_id s); clock := clock s; faults := faults s |}.

(** Modelled from the spec: an equality filter keeps the rows whose column
    holds the given text (every filter of the service is on an id). *)
Definition matches (fs : list (string * string)) (row : obj) : bool :=
  forallb (fun f => bool_decide (str_member f.1 row = Some f.2)) fs.

(** Modelled from the spec: the columns the store stamps with the time of
    the insert, per table of the data model. *)
Definition timestamp_columns (t : string) : list string :=
  if bool_decide (t = "campaigns") then ["created_at"; "updated_at"]
  else if bool_decide (t = "campaign_audit_log") then ["timestamp"]
  else if bool_decide (t = "customer_consent") then ["consent_date"; "updated_at"]
  else ["created_at"].

(** Modelled from the spec: the server-assigned identity and timestamps of
    a new row; members the payload gives take precedence. *)
Definition server_defaults (t : string) (s : store) : obj :=
  foldr (fun c o => <[c := VStr (clock s)]> o)
        (<["id" := VStr ("id-" +:+ pretty (next_id s))]> ∅)
        (timestamp_columns t).

(** Modelled from the spec: the natural key an upsert merges on, the pair
    (customer_id, restaurant_id) for consent rows and the id elsewhere. *)
Definition conflict_key (t : string) : list string :=
  if bool_decide (t = "customer_consent") then ["customer_id"; "restaurant_id"]
  else ["id"].

Definition key_of (cols : list string) (row : obj) : option (list string) :=
  mapM (fun c => str_member c row) cols.

Definition conflicts (cols : list string) (v row : obj) : bool :=
  match key_of cols v with
  | Some k => bool_decide (key_of cols row = Some k)
  | None => false
  end.

(** Modelled from the spec: the projection "customer_tags(*)" joins through
    the assignment table and nests the tag an assignment points to, [null]
    when there is none. *)
Definition project (s : store) (columns : string) (row : obj) : obj :=
  if bool_decide (columns = "customer_tags(*)") then
    <["customer_tags" :=
        match str_member "tag_id" row with
        | Some tag_id =>
            match List.filter (matches [("id", tag_id)]) (rows_of "customer_tags" s) with
            | tag :: _ => VObj tag
            | [] => VNull
            end
        | None => VNull
        end]> ∅
  else row.

(** Modelled from the spec: the rows of the table after the query, and the
    rows the query resolves to. *)
Definition effect (q : query) (s : store) : list obj * list obj :=
  let rows := rows_of (table q) s in
  match action q with
  | Select columns => (rows, project s columns <$> List.filter (matches (filters q)) rows)
  | Insert v =>
      let row := v ∪ server_defaults (table q) s in
      (rows ++ [row], [row])
  | Update v =>
      ((fun r => if matches (filters q) r then v ∪ r else r) <$> rows,
       (fun r => v ∪ r) <$> List.filter (matches (filters q)) rows)
  | Upsert v =>
      let key := conflict_key (table q) in
      if existsb (conflicts key v) rows then
        ((fun r => if conflicts key v r then v ∪ r else r) <$> rows,
         (fun r => v ∪ r) <$> List.filter (conflicts key v) rows)
      else
        let row := v ∪ server_defaults (table q) s in
        (rows ++ [row], [row])
  | Delete =>
      (List.filter (fun r => negb (matches (filters q) r)) rows,
       List.filter (matches (filters q)) rows)
  end.

(** Modelled from the spec: a single-row lookup answers the row, a
    maybe-single lookup the row or the not-present sentinel; more rows than
    asked for, or none where one is required, is an error of the store. *)
Definition respond (sh : shape) (rows : list obj) : response (rows_as sh) :=
  match sh return response (rows_as sh) with
  | NoData => Success tt
  | Rows => Success rows
  | Single =>
      match rows with
      | [r] => Success r
      | _ => Failure "JSON object requested, multiple (or no) rows returned"
      end
  | MaybeSingle =>
      match rows with
      | [] => Success None
      | [r] => Success (Some r)
      | _ => Failure "JSON object requested, multiple (or no) rows returned"
      end
  end.

Definition is_read (a : verb) : bool :=
  match a with
  | Select _ => true
  | _ => false
  end.

(** Modelled from the spec: a query is answered from the tables, and a
    mutation is applied only when its answer is not an error. *)
Definition answer_query (q : query) (s : store) : response (rows_as (returns q)) * store :=
  let e := effect q s in
  let r := respond (returns q) e.2 in
  (r, match error_of r with
      | Some _ => s
      | None => if is_read (action q) then s else with_rows (table q) e.1 s
      end).

(** Modelled from the spec: the data store as a backend.  A pending fault
    fails the call with its message and leaves the tables alone; the
    identity accessor answers the session's user, or fails without one. *)
Definition mem_handler : handler store :=
  fun r s =>
    match faults s with
    | Some m :: later => (Failure m, with_faults later s)
    | _ =>
        let s := with_faults (tail (faults s)) s in
        match r return response (result_of r) * store with
        | AuthGetUser =>
            (match session s with
             | Some u => Success u
             | None => Failure "Auth session missing!"
             end, s)
        | Query q => answer_query q s
        end
    end.

(** ** Vocabulary of the statements *)

(** the six mutating operations on a campaign *)
Inductive mutation : Type :=
| Create (campaign : obj)
| Edit (campaignId : string) (updates : obj)
| Schedule (campaignId scheduledAt : string)
| Cancel (campaignId : string)
| Pause (campaignId : string)
| Resume (campaignId : string).

Definition perform (m : mutation) : prog obj :=
  match m with
  | Create campaign => createCampaign campaign
  | Edit campaignId updates => updateCampaign campaignId updates
  | Schedule campaignId scheduledAt => scheduleCampaign campaignId scheduledAt
  | Cancel campaignId => cancelCampaign campaignId
  | Pause campaignId => pauseCampaign campaignId
  | Resume campaignId => resumeCampaign campaignId
  end.


Definition succeeded (e : event) : bool := bool_decide (failed e = None).

(** some write to the campaigns table was accepted *)
Definition primary_written (tr : list event) : bool :=
  existsb (fun e => writes_to "campaigns" e && succeeded e) tr.


(** ** Sample data *)

Definition sample_campaign : obj :=
  <["id" := VStr "cmp-1"]>
    (<["restaurant_id" := VStr "rest-1"]>
       (<["name" := VStr "Summer menu"]>
          (<["status" := VStr "draft"]> ∅))).

Definition sample_message : obj :=
  <["id" := VStr "msg-1"]>
    (<["campaign_id" := VStr "cmp-1"]>
       (<["channel" := VStr "email"]>
          (<["message_template" :=
               VStr "Hi {{customer_name}}, {{restaurant_name}} has {{promo_code}} for you {{first_name}}"]> ∅))).

Definition sample_customer : obj :=
  <["id" := VStr "cust-1"]>
    (<["first_name" := VStr "Ada"]> (<["last_name" := VStr "Lee"]> ∅)).

Definition sample_restaurant : obj :=
  <["id" := VStr "rest-1"]> (<["name" := VStr "Luigi"]> ∅).

Definition sample_store : store :=
  {| tables :=
       <["campaigns" := [sample_campaign]]>
         (<["campaign_messages" := [sample_message]]>
            (<["customers" := [sample_customer]]>
               (<["restaurants" := [sample_restaurant]]> ∅)));
     session := Some {| user_id := "user-1" |};
     next_id := 100;
     clock := "2024-06-01T12:00:00Z";
     faults := [] |}.

Definition vip_tag : obj :=
  <["id" := VStr "tag-1"]>
    (<["restaurant_id" := VStr "rest-1"]>
       (<["name" := VStr "VIP"]> (<["color" := VStr "#cc0000"]> ∅))).

(** a customer with two assignments, the second to a tag that no longer
    exists *)
Definition tagged_store : store :=
  {| tables :=
       <["customer_tags" := [vip_tag]]>
         (<["customer_tag_assignments" :=
              [ <["customer_id" := VStr "cust-1"]> (<["tag_id" := VStr "tag-1"]> ∅);
                <["customer_id" := VStr "cust-1"]> (<["tag_id" := VStr "tag-9"]> ∅) ]]>
            (tables sample_store));
     session := session sample_store;
     next_id := next_id sample_store;
     clock := clock sample_store;
     faults := [] |}.



(** ** Replacement, as the specification words it *)

(** [Replaced tok v s out]: [out] is [s] with every occurrence of [tok],
    found from the left and without overlap, replaced by the text [v], and
    every other character kept. *)
Inductive Replaced (tok v : string) : string -> string -> Prop :=
| Replaced_end : Replaced tok v EmptyString EmptyString
| Replaced_here s rest out :
    strip_prefix tok s = Some rest ->
    Replaced tok v rest out ->
    Replaced tok v s (v +:+ out)
| Replaced_next c s out :
    strip_prefix tok (String c s) = None ->
    Replaced tok v s out ->
    Replaced tok v (String c s) (String c out).

(** [tok] occurs somewhere in [s] *)
Fixpoint occurs (tok s : string) : bool :=
  match strip_prefix tok s with
  | Some _ => true
  | None =>
      match s with
      | EmptyString => false
      | String _ s' => occurs tok s'
      end
  end.

Fixpoint has_dollar (s : string) : bool :=
  match s with
  | EmptyString => false
  | String c s' => Ascii.eqb c "$"%char || has_dollar s'
  end.




(** the filter that selects the consent rows of a pair *)
Definition consent_pair (customerId restaurantId : string) : list (string * string) :=
  [("customer_id", customerId); ("restaurant_id", restaurantId)].



(** ** The other methods on tables

    The listing methods that order their rows and the methods that call a
    remote procedure use builder calls of their own and are not embedded
    here. *)

Definition createCampaignMessage (message : obj) : prog obj :=
  r ← await (Query (from "campaign_messages" .> insert message .> returning .> single));
  data_or_throw r.

Definition updateCampaignMessage (messageId : string) (updates : obj) : prog obj :=
  r ← await (Query (from "campaign_messages" .> update updates .> eq_ "id" messageId
                      .> returning .> single));
  data_or_throw r.

Definition createPromoCode (promoCode : obj) : prog obj :=
  r ← await (Query (from "promo_codes" .> insert promoCode .> returning .> single));
  data_or_throw r.

Definition getCampaignMetrics (campaignId : string) : prog (option obj) :=
  r ← await (Query (from "campaign_metrics" .> select "*"
                      .> eq_ "campaign_id" campaignId .> maybeSingle));
  data_or_throw r.

Definition createCustomerTag (tag : obj) : prog obj :=
  r ← await (Query (from "customer_tags" .> insert tag .> returning .> single));
  data_or_throw r.

Definition assignTagToCustomer (customerId tagId : string) : prog unit :=
  r ← await (Query (from "customer_tag_assignments"
                      .> insert (<["customer_id" := VStr customerId]>
                                   (<["tag_id" := VStr tagId]> ∅))));
  match r with
  | Failure m => Throw (Error m)
  | Success _ => Ret tt
  end.

Definition removeTagFromCustomer (customerId tagId : string) : prog unit :=
  r ← await (Query (from "customer_tag_assignments" .> delete_
                      .> eq_ "customer_id" customerId .> eq_ "tag_id" tagId));
  match r with
  | Failure m => Throw (Error m)
  | Success _ => Ret tt
  end.

Definition getCustomerConsent (customerId restaurantId : string) : prog (option obj) :=
  r ← await (Query (from "customer_consent" .> select "*"
                      .> eq_ "customer_id" customerId
                      .> eq_ "restaurant_id" restaurantId .> maybeSingle));
  data_or_throw r.

(** ** Further vocabulary *)

(** the calls of a run, in order *)
Definition calls {S A} (h : handler S) (p : prog A) (s : S) : list request :=
  call <$> trace (run h p s).

(** the status a lifecycle transition asks for *)
Definition target_status (m : mutation) : option string :=
  match m with
  | Schedule _ _ => Some "scheduled"
  | Cancel _ => Some "cancelled"
  | Pause _ => Some "paused"
  | Resume _ => Some "scheduled"
  | Create _ | Edit _ _ => None
  end.

(** the campaign a mutation of an existing campaign is aimed at *)
Definition target_of (m : mutation) : option string :=
  match m with
  | Create _ => None
  | Edit campaignId _ | Schedule campaignId _ | Cancel campaignId
  | Pause campaignId | Resume campaignId => Some campaignId
  end.

(** the seven operations that write to the audit log *)
Inductive audited : Type :=
| Mutating (m : mutation)
| Previewing (campaignId customerId : string).

(** how an audited operation ended, and the calls it awaited *)
Definition audited_run {S} (h : handler S) (a : audited) (s : S) : bool * list event :=
  match a with
  | Mutating m =>
      let e := run h (perform m) s in (returned (result e), trace e)
  | Previewing campaignId customerId =>
      let e := run h (previewCampaign campaignId customerId) s in
      (returned (result e), trace e)
  end.

(** a message row carries a template that [replace] can be called on *)
Definition has_template (msg : obj) : Prop :=
  exists t, msg !! "message_template" = Some (VStr t).

(** the filter that selects the assignments of a tag to a customer *)
Definition assignment_pair (customerId tagId : string) : list (string * string) :=
  [("customer_id", customerId); ("tag_id", tagId)].

(** [x] is one of the characters of [s] *)
Fixpoint has_char (x : ascii) (s : string) : bool :=
  match s with
  | EmptyString => false
  | String c s' => Ascii.eqb x c || has_char x s'
  end.

(** no character of [v] is a character of [tok] *)
Fixpoint foreign_to (tok v : string) : bool :=
  match v with
  | EmptyString => true
  | String c v' => negb (has_char c tok) && foreign_to tok v'
  end.

(** a run that awaits one call, which is neither the identity lookup nor
    an insert into the audit log *)
Definition one_plain_call {S A} (h : handler S) (p : prog A) (s : S) : Prop :=
  exists q, calls h p s = [Query q] /\ audit_inserts (trace (run h p s)) = [].

(** a run on the data store that leaves the audit log as it was *)
Definition keeps_audit_log {A} (p : prog A) (s : store) : Prop :=
  rows_of "campaign_audit_log" (final (run mem_handler p s))
  = rows_of "campaign_audit_log" s.
(** * Properties *)

Ltac answer h :=
  match goal with
  | |- context [h ?r ?s] =>
      let a := fresh "a" in let s' := fresh "s" in
      destruct (h r s) as [a s']; cbn [fst snd]; destruct a; cbn
  end.

Lemma audit_payload_lookup (campaignId : option value) (action : string)
    (performedBy : value) (changes : obj) :
  audit_payload campaignId action performedBy changes !! "campaign_id" = campaignId /\
  audit_payload campaignId action performedBy changes !! "action" = Some (VStr action) /\
  audit_payload campaignId action performedBy changes !! "performed_by" = Some performedBy /\
  audit_payload campaignId action performedBy changes !! "changes" = Some (VObj changes).
Proof.
  unfold audit_payload, set_member.
  destruct campaignId; repeat split; by simplify_map_eq.
Qed.

Lemma render_messages_pure (customer : obj) (restaurant : option obj) (msgs : list obj) :
  (exists out, render_messages customer restaurant msgs = Ret out) \/
  render_messages customer restaurant msgs = Throw TypeError.
Proof.
  induction msgs as [|msg rest IH]; cbn; [left; eauto|].
  unfold render_message.
  destruct (msg !! "message_template") as [[]|]; cbn; auto.
  destruct IH as [[out ->]| ->]; cbn; eauto.
Qed.

#[local] Arguments render_messages : simpl never.

Lemma rows_of_with_rows_eq (t : string) (rows : list obj) (s : store) :
  rows_of t (with_rows t rows s) = rows.
Proof. unfold rows_of, with_rows; cbn. by rewrite lookup_insert_eq. Qed.

Lemma rows_of_with_rows_ne (t t' : string) (rows : list obj) (s : store) :
  t ≠ t' -> rows_of t' (with_rows t rows s) = rows_of t' s.
Proof. intros Hne. unfold rows_of, with_rows; cbn. by rewrite lookup_insert_ne. Qed.

Lemma rows_of_with_faults (t : string) (f : list (option string)) (s : store) :
  rows_of t (with_faults f s) = rows_of t s.
Proof. reflexivity. Qed.

Lemma filter_rejected_none {A} (p : A -> bool) (l : list A) :
  List.filter p (List.filter (fun x => negb (p x)) l) = [].
Proof.
  induction l as [|x l IH]; [done|]; cbn.
  destruct (p x) eqn:E; cbn; [done|]. by rewrite E.
Qed.

Lemma mem_auth_quiet (s : store) :
  faults s = [] ->
  mem_handler AuthGetUser s =
    (match session s with
     | Some u => Success u
     | None => Failure "Auth session missing!"
     end, s).
Proof. destruct s as [t u n c f]; cbn; intros ->; reflexivity. Qed.

Lemma mem_query_quiet (q : query) (s : store) :
  faults s = [] -> mem_handler (Query q) s = answer_query q s.
Proof. destruct s as [t u n c f]; cbn; intros ->; reflexivity. Qed.

Lemma filter_patched {A} (p : A -> bool) (f : A -> A) (l : list A) :
  (forall x, p x = true -> p (f x) = true) ->
  List.filter p ((fun x => if p x then f x else x) <$> l) = f <$> List.filter p l.
Proof.
  intros Hp. induction l as [|x l IH]; [done|]; cbn.
  destruct (p x) eqn:E; cbn.
  - rewrite (Hp x E). cbn. by f_equal.
  - by rewrite E.
Qed.

Lemma str_member_union_absent (k : string) (v row : obj) :
  v !! k = None -> str_member k (v ∪ row) = str_member k row.
Proof.
  intros Hk. unfold str_member.
  by rewrite lookup_union_r.
Qed.

Lemma matches_union_absent (fs : list (string * string)) (v row : obj) :
  Forall (fun f => v !! f.1 = None) fs ->
  matches fs (v ∪ row) = matches fs row.
Proof.
  unfold matches. induction 1 as [|f fs Hf _ IH]; [done|]; cbn.
  by rewrite str_member_union_absent, IH.
Qed.

Lemma patch_one_member (k : string) (x : value) (row : obj) :
  <[k := x]> ∅ ∪ row = <[k := x]> row.
Proof. by rewrite <- insert_union_l, (left_id_L ∅ (∪)). Qed.




Lemma filter_snoc {A} (p : A -> bool) (l : list A) (x : A) :
  List.filter p (l ++ [x]) = List.filter p l ++ (if p x then [x] else []).
Proof. by rewrite List.filter_app. Qed.



Lemma str_member_union_present (k s : string) (v row : obj) :
  str_member k v = Some s -> str_member k (v ∪ row) = Some s.
Proof.
  unfold str_member. destruct (v !! k) as [x|] eqn:E; [|done].
  intros H. by rewrite (lookup_union_Some_l v row k x E).
Qed.


Lemma server_defaults_no_creator (s : store) :
  server_defaults "campaigns" s !! "created_by" = None.
Proof. unfold server_defaults; cbn. by simplify_map_eq. Qed.

#[local] Arguments mem_handler : simpl never.
#[local] Arguments rows_of : simpl never.
#[local] Arguments matches : simpl never.

Ltac quiet Hq :=
  first [ rewrite mem_auth_quiet by (cbn; exact Hq)
        | rewrite mem_query_quiet by (cbn; exact Hq) ];
  cbn.

(** ** Facts about replacement *)

Lemma append_cons (c : ascii) (s t : string) : String c s +:+ t = String c (s +:+ t).
Proof. reflexivity. Qed.

Lemma append_empty_r (s : string) : s +:+ EmptyString = s.
Proof. induction s as [|c s IH]; [done|]. by rewrite append_cons, IH. Qed.

Lemma append_assoc (a b c : string) : (a +:+ b) +:+ c = a +:+ (b +:+ c).
Proof. induction a as [|x a IH]; [done|]. by rewrite !append_cons, IH. Qed.

Lemma length_append (a b : string) :
  String.length (a +:+ b) = String.length a + String.length b.
Proof. induction a as [|x a IH]; [done|]. rewrite append_cons; cbn. by rewrite IH. Qed.

Lemma strip_prefix_append (tok s rest : string) :
  strip_prefix tok s = Some rest -> s = tok +:+ rest.
Proof.
  revert s. induction tok as [|a tok IH]; intros s; cbn.
  - by intros [= ->].
  - destruct s as [|b s]; [done|].
    destruct (Ascii.eqb a b) eqn:E; [|done].
    apply Ascii.eqb_eq in E as ->. intros H. by rewrite append_cons, (IH s H).
Qed.

Lemma expand_without_dollar (repl matched before after : string) :
  has_dollar repl = false -> expand_replacement repl matched before after = repl.
Proof.
  induction repl as [|c r IH]; [done|]; cbn.
  intros [Hc Hr]%orb_false_iff. rewrite Hc. by rewrite (IH Hr).
Qed.

(** passing over the rest of a match *)
Lemma replace_scan_skip (tok repl t before rest : string) :
  replace_scan tok repl (String.length t) before (t +:+ rest)
  = match rest with
    | EmptyString => EmptyString
    | _ => replace_scan tok repl 0 (before +:+ t) rest
    end.
Proof.
  revert before. induction t as [|c t IH]; intros before.
  - change (EmptyString +:+ rest) with rest. cbn [String.length].
    destruct rest; [done|]. by rewrite append_empty_r.
  - rewrite append_cons. cbn [String.length replace_scan].
    rewrite IH. destruct rest; [done|].
    by rewrite append_assoc, append_cons.
Qed.

Lemma replace_scan_Replaced (a : ascii) (tok' v : string) (n : nat) :
  has_dollar v = false ->
  forall s before,
    String.length s <= n ->
    Replaced (String a tok') v s (replace_scan (String a tok') v 0 before s).
Proof.
  intros Hv. induction n as [|n IH]; intros s before Hlen.
  - destruct s; [constructor|cbn in Hlen; lia].
  - destruct s as [|c s]; [constructor|].
    cbn [replace_scan].
    destruct (strip_prefix (String a tok') (String c s)) as [rest|] eqn:E.
    + rewrite expand_without_dollar by done.
      pose proof (strip_prefix_append _ _ _ E) as Hs. rewrite append_cons in Hs.
      injection Hs as -> ->.
      replace (String.length (String a tok') - 1) with (String.length tok')
        by (cbn [String.length]; lia).
      rewrite replace_scan_skip.
      apply (Replaced_here _ _ _ rest); [done|].
      assert (Hrest : String.length rest <= n)
        by (cbn in Hlen; rewrite length_append in Hlen; lia).
      destruct rest as [|r rest]; [constructor|].
      by apply IH.
    + apply Replaced_next; [done|]. apply IH. cbn in Hlen. lia.
Qed.

Lemma js_replace_all_Replaced (tok v s : string) :
  tok <> EmptyString -> has_dollar v = false ->
  Replaced tok v s (js_replace_all tok v s).
Proof.
  intros Htok Hv. destruct tok as [|a tok']; [done|].
  by apply (replace_scan_Replaced a tok' v (String.length s)).
Qed.

(** the relation determines the result *)
Lemma Replaced_functional (a : ascii) (tok' v s out1 out2 : string) :
  Replaced (String a tok') v s out1 -> Replaced (String a tok') v s out2 -> out1 = out2.
Proof.
  intros H1. revert out2.
  induction H1 as [|s rest out Hp _ IH|c s out Hp _ IH]; intros out2 H2.
  - inversion H2 as [|s' rest' out' Hp'|]; subst; done.
  - inversion H2 as [|s' rest' out' Hp'|c' s' out' Hp']; subst.
    + done.
    + rewrite Hp in Hp'. injection Hp' as <-. by rewrite (IH out').
    + by rewrite Hp in Hp'.
  - inversion H2 as [|s' rest' out' Hp'|c' s' out' Hp']; subst.
    + by rewrite Hp in Hp'.
    + by rewrite (IH out').
Qed.




(** ** The audit trail of the mutating operations *)








(** ** Previews *)


(** Dollar patterns in a name are expanded by [replace]: a doubled dollar
    sign comes out single, and [$&] comes out as the placeholder. *)
Example dollar_patterns_in_a_name_are_expanded :
  render_template
    (<["first_name" := VStr "Ca$$h"]> (<["last_name" := VStr "$&"]> ∅)) None
    "Hi {{customer_name}}"
  = "Hi Ca$h {{customer_name}}".
Proof. vm_compute. reflexivity. Qed.





(** ** Status transitions *)

(** C5: [resumeCampaign] never reads the campaign before it writes, and
    on the data store the row with the given id ends with status
    [scheduled] whatever row it was before (so whatever its status was);
    that row is also what the method returns. *)
Theorem resume_sets_scheduled_unconditionally {S} (h : handler S) (s0 : S)
    (s : store) (campaignId : string) (row : obj) :
  let e0 := run h (resumeCampaign campaignId) s0 in
  let e := run mem_handler (resumeCampaign campaignId) s in
  faults s = [] ->
  List.filter (matches [("id", campaignId)]) (rows_of "campaigns" s) = [row] ->
  Forall (fun ev => match call ev with
                    | Query q => is_read (action q) = false
                    | AuthGetUser => True
                    end) (trace e0) /\
  result e = Returned (<["status" := VStr "scheduled"]> row) /\
  List.filter (matches [("id", campaignId)]) (rows_of "campaigns" (final e))
  = [<["status" := VStr "scheduled"]> row].
Proof.
  intros e0 e Hq Hrow. split; [|subst e].
  - subst e0. cbn. answer h; answer h; repeat constructor.
  - cbn. quiet Hq. quiet Hq. rewrite Hrow. cbn. quiet Hq.
    split; [by rewrite patch_one_member|].
    rewrite rows_of_with_rows_ne by done. rewrite rows_of_with_rows_eq.
    rewrite (filter_patched (matches [("id", campaignId)])).
    + rewrite Hrow. cbn. by rewrite patch_one_member.
    + intros x Hx. rewrite matches_union_absent; [done|by repeat constructor].
Qed.

Lemma resume_sets_scheduled_unconditionally_witness :
  faults sample_store = [] /\
  List.filter (matches [("id", "cmp-1")]) (rows_of "campaigns" sample_store)
  = [sample_campaign] /\
  sample_campaign !! "status" = Some (VStr "draft") /\
  result (run mem_handler (resumeCampaign "cmp-1") sample_store)
  = Returned (<["status" := VStr "scheduled"]> sample_campaign).
Proof.
  assert (Hq : faults sample_store = []) by reflexivity.
  assert (Hrow : List.filter (matches [("id", "cmp-1")]) (rows_of "campaigns" sample_store)
                 = [sample_campaign]) by (vm_compute; reflexivity).
  split; [exact Hq|]. split; [exact Hrow|]. split; [vm_compute; reflexivity|].
  exact (proj1 (proj2 (resume_sets_scheduled_unconditionally mem_handler sample_store
                         sample_store "cmp-1" sample_campaign Hq Hrow))).
Defined.

(** ** Tags and consent *)

(** Against C6 as stated: a customer of [tagged_store] has an assignment
    whose tag is gone, and the list [getCustomerTags] returns holds a
    [null] entry for it. *)
Lemma deleted_tag_yields_null_entry :
  result (run mem_handler (getCustomerTags "cust-1") tagged_store)
  = Returned [Some (VObj vip_tag); Some VNull].
Proof. vm_compute. reflexivity. Qed.

(** C6, as amended: [getCustomerTags] returns, row by row and in order,
    the [customer_tags] member of the rows the join answered, nothing
    added and nothing left out; so every entry is a tag object when every
    row embeds one. *)
Theorem customer_tags_are_the_embedded_members {S} (h : handler S) (s : S)
    (customerId : string) (rows : list obj) :
  let e := run h (getCustomerTags customerId) s in
  (h (Query (tags_of_customer customerId)) s).1 = Success rows ->
  exists tags,
    result e = Returned tags /\
    Forall2 (fun row tag => tag = row !! "customer_tags") rows tags /\
    (Forall (fun row => exists t, row !! "customer_tags" = Some (VObj t)) rows ->
     Forall (fun tag => exists t, tag = Some (VObj t)) tags).
Proof.
  cbn. destruct (h (Query (tags_of_customer customerId)) s) as [r s1]; cbn [fst snd].
  intros ->. cbn. eexists; split; [reflexivity|]. split.
  - induction rows; constructor; auto.
  - induction 1; constructor; auto.
Qed.

Lemma customer_tags_are_the_embedded_members_witness :
  (mem_handler (Query (tags_of_customer "cust-1")) tagged_store).1
  = Success [ <["customer_tags" := VObj vip_tag]> ∅; <["customer_tags" := VNull]> ∅ ] /\
  exists tags,
    result (run mem_handler (getCustomerTags "cust-1") tagged_store) = Returned tags /\
    length tags = 2.
Proof.
  assert (H : (mem_handler (Query (tags_of_customer "cust-1")) tagged_store).1
    = Success [ <["customer_tags" := VObj vip_tag]> ∅; <["customer_tags" := VNull]> ∅ ])
    by (vm_compute; reflexivity).
  split; [exact H|].
  destruct (customer_tags_are_the_embedded_members mem_handler tagged_store "cust-1" _ H)
    as (tags & Hres & Hall & _).
  exists tags. split; [exact Hres|].
  by rewrite <- (Forall2_length _ _ _ Hall).
Defined.









(** ** Creation and deletion *)

(** C8: on the data store [createCampaign] returns the row it
    persisted, and the row's [created_by] is the id of the session's
    user, or absent when there is no session; and for any backend, a failed
    identity lookup still leads to the insert, sent without [created_by],
    whose acceptance alone makes the method return. *)
Theorem created_by_is_caller_identity {S} (h : handler S) (s0 : S)
    (s : store) (campaign : obj) :
  let e0 := run h (createCampaign campaign) s0 in
  let e := run mem_handler (createCampaign campaign) s in
  faults s = [] ->
  (exists row,
      result e = Returned row /\
      row !! "created_by" = (fun u => VStr (user_id u)) <$> session s /\
      last (rows_of "campaigns" (final e)) = Some row) /\
  (is_Some (error_of (h AuthGetUser s0).1) ->
   (exists payload,
       call <$> trace e0 !! 1
       = Some (Query (from "campaigns" .> insert payload .> returning .> single)) /\
       payload !! "created_by" = None) /\
   (primary_written (trace e0) = true -> returned (result e0) = true)).
Proof.
  intros e0 e Hq. split; [subst e|subst e0].
  - cbn. quiet Hq. quiet Hq. quiet Hq.
    eexists; split; [reflexivity|]. split.
    + destruct (session s) as [u|]; cbn.
      * rewrite lookup_union_l'; by simplify_map_eq.
      * rewrite lookup_union_r by by simplify_map_eq.
        apply server_defaults_no_creator.
    + rewrite rows_of_with_rows_ne by done. rewrite rows_of_with_rows_eq.
      apply last_snoc.
  - cbn. destruct (h AuthGetUser s0) as [[u|msg] s1]; cbn; intros [x Hx]; [done|].
    split.
    + eexists; split; [reflexivity|]. by simplify_map_eq.
    + answer h; [|done]. by answer h.
Qed.

Lemma created_by_is_caller_identity_witness :
  faults sample_store = [] /\
  exists row,
    result (run mem_handler (createCampaign (<["name" := VStr "Autumn menu"]> ∅))
              sample_store) = Returned row /\
    row !! "created_by" = Some (VStr "user-1").
Proof.
  assert (Hq : faults sample_store = []) by reflexivity.
  split; [exact Hq|].
  destruct (proj1 (created_by_is_caller_identity mem_handler sample_store sample_store
                     (<["name" := VStr "Autumn menu"]> ∅) Hq))
    as (row & Hres & Hby & _).
  exists row. split; [exact Hres|exact Hby].
Defined.

(** C9: [deleteCampaign] awaits one call, the delete on the campaigns
    table, whatever the backend answers; on the data store the audit log
    is the same after the call as before it, a call that returns leaves no
    campaign row with that id, and a call that throws leaves the campaigns
    untouched. *)
Theorem delete_leaves_audit_log_unchanged {S} (h : handler S) (s0 : S)
    (s : store) (campaignId : string) :
  (let e := run h (deleteCampaign campaignId) s0 in
   map call (trace e) = [Query (from "campaigns" .> delete_ .> eq_ "id" campaignId)] /\
   audit_inserts (trace e) = []) /\
  (let e := run mem_handler (deleteCampaign campaignId) s in
   rows_of "campaign_audit_log" (final e) = rows_of "campaign_audit_log" s /\
   (result e = Returned tt ->
    List.filter (matches [("id", campaignId)]) (rows_of "campaigns" (final e)) = []) /\
   (forall x, result e = Thrown x ->
    rows_of "campaigns" (final e) = rows_of "campaigns" s)).
Proof.
  split.
  - cbn. answer h; done.
  - cbn. unfold mem_handler.
    destruct (faults s) as [|[msg|] later]; cbn.
    all: repeat split; try done.
    all: try (rewrite rows_of_with_rows_ne by done; apply rows_of_with_faults).
    all: intros _; rewrite rows_of_with_rows_eq, rows_of_with_faults;
      apply (filter_rejected_none (matches [("id", campaignId)])).
Qed.

Lemma delete_leaves_audit_log_unchanged_witness :
  result (run mem_handler (deleteCampaign "cmp-1") sample_store) = Returned tt /\
  List.filter (matches [("id", "cmp-1")])
    (rows_of "campaigns" (final (run mem_handler (deleteCampaign "cmp-1") sample_store)))
  = [].
Proof.
  assert (H : result (run mem_handler (deleteCampaign "cmp-1") sample_store) = Returned tt)
    by (vm_compute; reflexivity).
  split; [exact H|].
  exact (proj1 (proj2 (proj2 (delete_leaves_audit_log_unchanged mem_handler sample_store
                                 sample_store "cmp-1"))) H).
Defined.

(** ** The customer fetch of a preview *)

(** C10: when the campaign and its messages were found and the customer
    fetch fails, with whatever message of the store, [previewCampaign]
    throws the customer-not-found error; the failed fetch is the last call
    of the run and its message goes nowhere. *)
Theorem customer_fetch_failure_reads_as_not_found {S} (h : handler S) (s : S)
    (campaignId customerId : string) (c m : obj) (ms : list obj) (msg : string) :
  let e := run h (previewCampaign campaignId customerId) s in
  let lookup := h (Query (campaign_by_id campaignId)) s in
  let listing := h (Query (messages_of_campaign campaignId)) lookup.2 in
  let fetch := h (Query (customer_by_id customerId)) listing.2 in
  lookup.1 = Success (Some c) ->
  listing.1 = Success (m :: ms) ->
  fetch.1 = Failure msg ->
  result e = Thrown (Error "Customer not found") /\
  trace e = [ {| call := Query (campaign_by_id campaignId); failed := None |};
              {| call := Query (messages_of_campaign campaignId); failed := None |};
              {| call := Query (customer_by_id customerId); failed := Some msg |} ].
Proof.
  cbn zeta. unfold previewCampaign, getCampaign, getCampaignMessages. cbn.
  destruct (h (Query (campaign_by_id campaignId)) s) as [lookup s1]; cbn [fst snd].
  intros ->. cbn.
  destruct (h (Query (messages_of_campaign campaignId)) s1) as [listing s2]; cbn [fst snd].
  intros ->. cbn.
  destruct (h (Query (customer_by_id customerId)) s2) as [fetch s3]; cbn [fst snd].
  intros ->. cbn. done.
Qed.

Lemma customer_fetch_failure_reads_as_not_found_witness :
  result (run mem_handler (previewCampaign "cmp-1" "cust-1")
            (with_faults [None; None; Some "connection reset by peer"] sample_store))
  = Thrown (Error "Customer not found").
Proof.
  refine (proj1 (customer_fetch_failure_reads_as_not_found mem_handler
            (with_faults [None; None; Some "connection reset by peer"] sample_store)
            "cmp-1" "cust-1" sample_campaign sample_message [] "connection reset by peer"
            _ _ _)); vm_compute; reflexivity.
Defined.

(** * Further properties *)

(** ** Failure of the write, and what the audit trail records *)

(** X1: when the write of a mutating operation is refused, the method
    throws an [Error] with the message of the store, unchanged, after
    exactly two calls (the identity lookup and the write): nothing is
    retried and the audit log is not touched. *)
Theorem refused_write_throws_store_message {S} (h : handler S) (s : S) (m : mutation) :
  let e := run h (perform m) s in
  primary_written (trace e) = false ->
  exists u w msg,
    trace e = [u; w] /\
    call u = AuthGetUser /\
    writes_to "campaigns" w = true /\
    failed w = Some msg /\
    result e = Thrown (Error msg) /\
    audit_inserts (trace e) = [].
Proof.
  destruct m; cbn; answer h; answer h; try discriminate; intros _;
    do 3 eexists; repeat split; reflexivity.
Qed.

Lemma refused_write_throws_store_message_witness :
  primary_written
    (trace (run mem_handler (perform (Pause "cmp-1"))
              (with_faults [None; Some "permission denied for table campaigns"]
                 sample_store))) = false /\
  exists msg,
    result (run mem_handler (perform (Pause "cmp-1"))
              (with_faults [None; Some "permission denied for table campaigns"]
                 sample_store))
    = Thrown (Error msg).
Proof.
  assert (H : primary_written
    (trace (run mem_handler (perform (Pause "cmp-1"))
              (with_faults [None; Some "permission denied for table campaigns"]
                 sample_store))) = false) by (vm_compute; reflexivity).
  split; [exact H|].
  destruct (refused_write_throws_store_message mem_handler
              (with_faults [None; Some "permission denied for table campaigns"] sample_store)
              (Pause "cmp-1") H)
    as (u & w & msg & _ & _ & _ & _ & Hres & _).
  exists msg. exact Hres.
Defined.

(** X2: each of the seven audited operations awaits an insert into the
    audit log exactly once when it returns and not at all when it throws,
    whatever the backend answers. *)
Theorem audits_once_iff_returns {S} (h : handler S) (s : S) (a : audited) :
  length (audit_inserts (audited_run h a s).2)
  = if (audited_run h a s).1 then 1 else 0.
Proof.
  destruct a as [m|campaignId customerId]; cbn.
  - destruct m; cbn; destruct (h AuthGetUser s) as [[u|msg] s1]; cbn [fst snd]; cbn;
      answer h; try reflexivity; answer h; reflexivity.
  - answer h; try reflexivity.
    answer h; try (destruct data; reflexivity).
    destruct data as [campaign|]; cbn; try reflexivity.
    destruct data0 as [|msg msgs]; cbn; try reflexivity.
    answer h; try reflexivity.
    match goal with |- context [h ?r ?s] => destruct (h r s) as [rest s'] end.
    cbn [fst snd].
    match goal with
    | |- context [render_messages ?c ?r ?l] =>
        pose proof (render_messages_pure c r l) as P;
        destruct (render_messages c r l) as [out|x|]
    end; cbn; [|reflexivity|exfalso; by destruct P as [[? ?]|?]].
    match goal with
    | |- context [h AuthGetUser ?s] => destruct (h AuthGetUser s) as [[?|?] ?]
    end; cbn [fst snd]; cbn; try answer h; reflexivity.
Qed.

(** X3: the audit entry of a mutating operation names who did it and on
    which campaign: [performed_by] is the id of the user the identity
    lookup answered, and [null] when the lookup failed or the id is the
    empty string; [campaign_id] is the id the caller passed, and for
    [createCampaign] the id of the row the insert answered, which is also
    the row the method returns. *)
Theorem audit_entry_names_performer_and_campaign {S} (h : handler S) (s : S)
    (m : mutation) :
  let e := run h (perform m) s in
  primary_written (trace e) = true ->
  exists payload row,
    audit_inserts (trace e) = [payload] /\
    result e = Returned row /\
    (forall u, (h AuthGetUser s).1 = Success u -> user_id u <> EmptyString ->
               payload !! "performed_by" = Some (VStr (user_id u))) /\
    (forall u, (h AuthGetUser s).1 = Success u -> user_id u = EmptyString ->
               payload !! "performed_by" = Some VNull) /\
    (is_Some (error_of (h AuthGetUser s).1) -> payload !! "performed_by" = Some VNull) /\
    payload !! "campaign_id"
    = match target_of m with
      | Some campaignId => Some (VStr campaignId)
      | None => row !! "id"
      end.
Proof.
  destruct m; cbn; destruct (h AuthGetUser s) as [[u|msg] s1]; cbn [fst snd]; cbn;
    answer h; try discriminate; intros _; try answer h;
    do 2 eexists; (split; [reflexivity|]); (split; [reflexivity|]).
  all: repeat split.
  all: try (intros ? [= <-] Hid).
  all: try (intros [? [=]]).
  all: try (intros ? [=]).
  all: try apply audit_payload_lookup.
  all: try apply (audit_payload_lookup (Some _)).
  all: etransitivity;
    [first [apply audit_payload_lookup | apply (audit_payload_lookup (Some _))]|].
  all: try (by rewrite bool_decide_eq_false_2).
  all: by rewrite Hid.
Qed.

Lemma audit_entry_names_performer_and_campaign_witness :
  primary_written (trace (run mem_handler (perform (Create (<["name" := VStr "Autumn menu"]> ∅)))
                            sample_store)) = true /\
  exists (payload row : obj),
    audit_inserts (trace (run mem_handler
                            (perform (Create (<["name" := VStr "Autumn menu"]> ∅)))
                            sample_store)) = [payload] /\
    payload !! "performed_by" = Some (VStr "user-1") /\
    payload !! "campaign_id" = row !! "id".
Proof.
  assert (H : primary_written
    (trace (run mem_handler (perform (Create (<["name" := VStr "Autumn menu"]> ∅)))
              sample_store)) = true) by (vm_compute; reflexivity).
  split; [exact H|].
  destruct (audit_entry_names_performer_and_campaign mem_handler sample_store
              (Create (<["name" := VStr "Autumn menu"]> ∅)) H)
    as (payload & row & Hins & _ & Hby & _ & _ & Hid).
  exists payload, row. split; [exact Hins|]. split; [|exact Hid].
  apply (Hby {| user_id := "user-1" |}); [vm_compute; reflexivity|done].
Defined.

(** X4: the [created_by] a caller puts into the object passed to
    [createCampaign] has no effect: the run is the same as for the object
    without that member, so the creator recorded is never the caller's
    choice. *)
Theorem caller_cannot_choose_creator {S} (h : handler S) (s : S) (campaign : obj) :
  run h (createCampaign campaign) s
  = run h (createCampaign (delete "created_by" campaign)) s.
Proof.
  cbn. destruct (h AuthGetUser s) as [[u|msg] s1]; cbn [fst snd]; cbn.
  - by rewrite insert_delete_eq.
  - by rewrite delete_delete_eq.
Qed.

Lemma render_messages_total (customer : obj) (restaurant : option obj) (msgs : list obj) :
  Forall has_template msgs ->
  exists out, render_messages customer restaurant msgs = Ret out /\
              length out = length msgs.
Proof.
  induction 1 as [|msg rest [t Ht] _ (out & IH & Hlen)]; unfold render_messages.
  - by exists [].
  - fold render_messages. unfold render_message. rewrite Ht; cbn. rewrite IH; cbn.
    eexists; split; [reflexivity|]. cbn. by rewrite Hlen.
Qed.

(** X5: once the campaign, at least one message and the customer were
    found, and every message holds a text template, [previewCampaign]
    returns whatever the restaurant fetch, the identity lookup and the
    audit insert answer.  It returns one rendered message per stored
    message, its only write is one insert into the audit log, awaited
    last, with action [preview] and the customer id as its changes. *)
Theorem preview_returns_once_inputs_found {S} (h : handler S) (s : S)
    (campaignId customerId : string) (c cust : obj) (msgs : list obj) :
  let e := run h (previewCampaign campaignId customerId) s in
  let lookup := h (Query (campaign_by_id campaignId)) s in
  let listing := h (Query (messages_of_campaign campaignId)) lookup.2 in
  let fetch := h (Query (customer_by_id customerId)) listing.2 in
  lookup.1 = Success (Some c) ->
  listing.1 = Success msgs ->
  msgs <> [] ->
  Forall has_template msgs ->
  fetch.1 = Success cust ->
  exists p payload a,
    result e = Returned p /\
    campaign p = c /\ customer p = cust /\
    length (messages p) = length msgs /\
    audit_inserts (trace e) = [payload] /\
    last (trace e) = Some a /\
    audit_insert_of a = Some payload /\
    payload !! "action" = Some (VStr "preview") /\
    payload !! "campaign_id" = Some (VStr campaignId) /\
    payload !! "changes" = Some (VObj (<["customer_id" := VStr customerId]> ∅)) /\
    Forall (fun ev => forall t, t <> "campaign_audit_log" -> writes_to t ev = false)
           (trace e).
Proof.
  cbn zeta. unfold previewCampaign, getCampaign, getCampaignMessages. cbn.
  destruct (h (Query (campaign_by_id campaignId)) s) as [lookup s1]; cbn [fst snd].
  intros ->. cbn.
  destruct (h (Query (messages_of_campaign campaignId)) s1) as [listing s2]; cbn [fst snd].
  intros -> Hne Hall. destruct msgs as [|m ms]; [done|]. cbn.
  destruct (h (Query (customer_by_id customerId)) s2) as [fetch s3]; cbn [fst snd].
  intros ->. cbn.
  match goal with |- context [h ?r ?s] => destruct (h r s) as [place s4] end.
  cbn [fst snd].
  match goal with
  | |- context [render_messages ?cu ?r ?l] =>
      destruct (render_messages_total cu r l Hall) as (out & Hout & Hlen);
      pose proof Hout as Hout';
      destruct (render_messages cu r l) as [out'|x|]; try discriminate
  end.
  injection Hout' as ->. cbn.
  match goal with
  | |- context [h AuthGetUser ?s] => destruct (h AuthGetUser s) as [who s5]
  end; cbn [fst snd]; cbn.
  match goal with |- context [h ?r ?s] => destruct (h r s) as [logged s6] end.
  cbn [fst snd].
  do 3 eexists. repeat split; try reflexivity; try done.
  all: try apply (audit_payload_lookup (Some _)).
  repeat constructor. cbn. intros t Ht. by rewrite bool_decide_eq_false_2.
Qed.

Lemma preview_returns_once_inputs_found_witness :
  (mem_handler (Query (customer_by_id "cust-1"))
     (mem_handler (Query (messages_of_campaign "cmp-1"))
        (mem_handler (Query (campaign_by_id "cmp-1"))
           (with_faults [None; None; None; Some "restaurants unavailable";
                         Some "no session"; Some "audit log unavailable"]
              sample_store)).2).2).1 = Success sample_customer /\
  returned (result (run mem_handler (previewCampaign "cmp-1" "cust-1")
                      (with_faults [None; None; None; Some "restaurants unavailable";
                                    Some "no session"; Some "audit log unavailable"]
                         sample_store))) = true.
Proof.
  assert (H : (mem_handler (Query (customer_by_id "cust-1"))
     (mem_handler (Query (messages_of_campaign "cmp-1"))
        (mem_handler (Query (campaign_by_id "cmp-1"))
           (with_faults [None; None; None; Some "restaurants unavailable";
                         Some "no session"; Some "audit log unavailable"]
              sample_store)).2).2).1 = Success sample_customer)
    by (vm_compute; reflexivity).
  split; [exact H|].
  destruct (preview_returns_once_inputs_found mem_handler
              (with_faults [None; None; None; Some "restaurants unavailable";
                            Some "no session"; Some "audit log unavailable"]
                 sample_store)
              "cmp-1" "cust-1" sample_campaign sample_customer [sample_message])
    as (p & payload & a & Hres & _);
    [vm_compute; reflexivity|vm_compute; reflexivity|done| |exact H|by rewrite Hres].
  repeat constructor. eexists. vm_compute. reflexivity.
Defined.

(** ** What a rendering can still contain *)

Lemma eqb_of_has_char (x a : ascii) (tok : string) :
  has_char x (String a tok) = false -> Ascii.eqb a x = false.
Proof.
  cbn. intros [H _]%orb_false_iff. by rewrite Ascii.eqb_sym.
Qed.

(** a prefix of the output that avoids the first character of the value
    was a prefix of the subject *)
Lemma Replaced_prefix_back (tok x v' p : string) (x0 : ascii) :
  x = String x0 v' ->
  forall s out rest,
    Replaced tok x s out ->
    has_char x0 p = false ->
    strip_prefix p out = Some rest ->
    exists rest', strip_prefix p s = Some rest'.
Proof.
  intros ->. induction p as [|b p IH]; intros s out rest HR Hx Hp.
  - by exists s.
  - cbn in Hx. apply orb_false_iff in Hx as [Hxb Hxp].
    destruct out as [|b' out1]; [done|].
    cbn [strip_prefix] in Hp.
    destruct (Ascii.eqb b b') eqn:Eb; [|done].
    apply Ascii.eqb_eq in Eb as <-.
    inversion HR as [|s0 rest0 out0 Hs0 HR0|c s' out' Hnone HR']; subst.
    + by rewrite Ascii.eqb_refl in Hxb.
    + destruct (IH s' out1 rest HR' Hxp Hp) as [rest' Hrest'].
      exists rest'. cbn [strip_prefix]. by rewrite Ascii.eqb_refl.
Qed.

Lemma occurs_after_foreign (a : ascii) (tok' v out : string) :
  foreign_to (String a tok') v = true ->
  occurs (String a tok') (v +:+ out) = occurs (String a tok') out.
Proof.
  induction v as [|c v IH]; [done|].
  cbn [foreign_to]. intros [Hc Hv]%andb_true_iff.
  apply negb_true_iff, eqb_of_has_char in Hc.
  rewrite append_cons. cbn [occurs strip_prefix]. rewrite Hc. by apply IH.
Qed.

Lemma Replaced_leaves_no_occurrence (a x0 : ascii) (tok' v' s out : string) :
  foreign_to (String a tok') (String x0 v') = true ->
  Replaced (String a tok') (String x0 v') s out ->
  occurs (String a tok') out = false.
Proof.
  intros Hf HR.
  induction HR as [|s rest out Hp HR IH|c s out Hp HR IH].
  - reflexivity.
  - by rewrite occurs_after_foreign.
  - cbn [occurs].
    destruct (strip_prefix (String a tok') (String c out)) as [rest|] eqn:E; [|exact IH].
    exfalso.
    assert (Hx : has_char x0 (String a tok') = false).
    { cbn [foreign_to] in Hf. apply andb_true_iff in Hf as [Hf _].
      by apply negb_true_iff in Hf. }
    destruct (Replaced_prefix_back (String a tok') (String x0 v') v' (String a tok') x0
                eq_refl (String c s) (String c out) rest
                (Replaced_next _ _ c s out Hp HR) Hx E) as [rest' Hrest'].
    congruence.
Qed.

(** X6: no rendered message ever shows the promo placeholder: whatever
    the template, the customer and the restaurant, the text
    [previewCampaign] renders contains no [{{promo_code}}]. *)
Theorem rendering_holds_no_promo_placeholder (customer : obj) (restaurant : option obj)
    (message_template : string) :
  occurs "{{promo_code}}" (render_template customer restaurant message_template) = false.
Proof.
  unfold render_template.
  apply (Replaced_leaves_no_occurrence "{"%char "P"%char "{promo_code}}" "REVIEW-CODE"
           (js_replace_all "{{restaurant_name}}" (restaurant_name restaurant)
              (js_replace_all "{{customer_name}}" (full_name customer) message_template)));
    [reflexivity|].
  by apply js_replace_all_Replaced.
Qed.

(** ** Rows after a write *)

Lemma filter_rest_patched {A} (p : A -> bool) (f : A -> A) (l : list A) :
  (forall x, p x = true -> p (f x) = true) ->
  List.filter (fun x => negb (p x)) ((fun x => if p x then f x else x) <$> l)
  = List.filter (fun x => negb (p x)) l.
Proof.
  intros Hp. induction l as [|x l IH]; [done|]; cbn.
  destruct (p x) eqn:E; cbn.
  - by rewrite (Hp x E).
  - rewrite E. cbn. by f_equal.
Qed.

Lemma matches_id_patched (campaignId : string) (v row : obj) :
  v !! "id" = None ->
  matches [("id", campaignId)] row = true ->
  matches [("id", campaignId)] (v ∪ row) = true.
Proof.
  intros Hv Hrow. rewrite matches_union_absent; [done|]. by repeat constructor.
Qed.

(** X7: a lifecycle transition (schedule, cancel, pause, resume) of a
    campaign that exists, on a store that answers: the campaign's row ends
    with the status the transition asks for, whatever row it was; only
    [scheduleCampaign] touches [scheduled_at]; every other member of the
    row and every other campaign stay as they were. *)
Theorem transition_changes_status_only (s : store) (m : mutation)
    (campaignId status : string) (row : obj) :
  let e := run mem_handler (perform m) s in
  let others := fun rows => List.filter (fun r => negb (matches [("id", campaignId)] r)) rows in
  target_status m = Some status ->
  target_of m = Some campaignId ->
  faults s = [] ->
  List.filter (matches [("id", campaignId)]) (rows_of "campaigns" s) = [row] ->
  exists row',
    result e = Returned row' /\
    List.filter (matches [("id", campaignId)]) (rows_of "campaigns" (final e)) = [row'] /\
    row' !! "status" = Some (VStr status) /\
    (forall scheduledAt,
        m = Schedule campaignId scheduledAt ->
        row' !! "scheduled_at" = Some (VStr scheduledAt)) /\
    ((forall scheduledAt, m <> Schedule campaignId scheduledAt) ->
     row' !! "scheduled_at" = row !! "scheduled_at") /\
    (forall k, k <> "status" -> k <> "scheduled_at" -> row' !! k = row !! k) /\
    others (rows_of "campaigns" (final e)) = others (rows_of "campaigns" s).
Proof.
  intros e others Hst Hto Hq Hrow. subst e others.
  destruct m; try discriminate; injection Hst as <-; injection Hto as ->.
  all: cbn; quiet Hq; quiet Hq; rewrite Hrow; cbn; quiet Hq.
  all: eexists; split; [reflexivity|].
  all: rewrite rows_of_with_rows_ne by done; rewrite rows_of_with_rows_eq.
  all: rewrite (filter_patched (matches [("id", campaignId)])), Hrow
    by (intros x Hx; apply matches_id_patched; [by simplify_map_eq|done]).
  all: rewrite (filter_rest_patched (matches [("id", campaignId)]))
    by (intros x Hx; apply matches_id_patched; [by simplify_map_eq|done]).
  all: repeat split.
  all: try (intros at_ [=]; subst).
  all: try (intros k Hk1 Hk2).
  all: try (intros Hno; try (by destruct (Hno scheduledAt))).
  all: try (apply lookup_union_Some_l; by simplify_map_eq).
  all: rewrite lookup_union_r; [done|by simplify_map_eq].
Qed.

Lemma transition_changes_status_only_witness :
  faults sample_store = [] /\
  exists row',
    result (run mem_handler (perform (Schedule "cmp-1" "2024-07-01T09:00:00Z")) sample_store)
    = Returned row' /\
    row' !! "status" = Some (VStr "scheduled") /\
    row' !! "scheduled_at" = Some (VStr "2024-07-01T09:00:00Z") /\
    row' !! "name" = Some (VStr "Summer menu").
Proof.
  assert (Hq : faults sample_store = []) by reflexivity.
  split; [exact Hq|].
  destruct (transition_changes_status_only sample_store
              (Schedule "cmp-1" "2024-07-01T09:00:00Z") "cmp-1" "scheduled" sample_campaign
              eq_refl eq_refl Hq)
    as (row' & Hres & _ & Hst & Hat & _ & Hk & _); [vm_compute; reflexivity|].
  exists row'. split; [exact Hres|]. split; [exact Hst|].
  split; [by apply Hat|]. rewrite Hk by done. vm_compute. reflexivity.
Defined.

(** X8: [updateCampaign] on a campaign that exists, on a store that
    answers, returns the stored row with the patch merged over it: a member
    named by the patch takes the patch's value, every other member keeps
    its value, and the other campaigns are untouched.  With an empty patch
    the row is returned as it was, and the audit log still receives an
    [edited] entry. *)
Theorem update_merges_patch (s : store) (campaignId : string) (updates row : obj) :
  let e := run mem_handler (updateCampaign campaignId updates) s in
  let others := fun rows => List.filter (fun r => negb (matches [("id", campaignId)] r)) rows in
  faults s = [] ->
  List.filter (matches [("id", campaignId)]) (rows_of "campaigns" s) = [row] ->
  exists row' entry,
    result e = Returned row' /\
    (forall k v, updates !! k = Some v -> row' !! k = Some v) /\
    (forall k, updates !! k = None -> row' !! k = row !! k) /\
    (updates = ∅ -> row' = row) /\
    In row' (rows_of "campaigns" (final e)) /\
    (updates !! "id" = None ->
     others (rows_of "campaigns" (final e)) = others (rows_of "campaigns" s)) /\
    rows_of "campaign_audit_log" (final e) = rows_of "campaign_audit_log" s ++ [entry] /\
    entry !! "action" = Some (VStr "edited") /\
    entry !! "changes" = Some (VObj updates).
Proof.
  intros e others Hq Hrow. subst e others.
  cbn; quiet Hq; quiet Hq; rewrite Hrow; cbn; quiet Hq.
  do 2 eexists. split; [reflexivity|].
  rewrite rows_of_with_rows_eq.
  rewrite (rows_of_with_rows_ne "campaign_audit_log" "campaigns") by done.
  rewrite (rows_of_with_rows_ne "campaigns" "campaign_audit_log") by done.
  rewrite rows_of_with_rows_eq.
  repeat split.
  all: try (intros k v Hk; by apply lookup_union_Some_l).
  all: try (intros k Hk; by rewrite lookup_union_r).
  all: try (intros ->; by rewrite (left_id_L ∅ (∪))).
  all: try (intros Hid; apply filter_rest_patched; intros x Hx;
            by apply matches_id_patched).
  all: try (apply lookup_union_Some_l; apply (audit_payload_lookup (Some _))).
  assert (Hin : In row (List.filter (matches [("id", campaignId)])
                          (rows_of "campaigns" s))) by (rewrite Hrow; by left).
  apply filter_In in Hin as [Hin Hm].
  apply in_map_iff. exists row. by rewrite Hm.
Qed.

Lemma update_merges_patch_witness :
  faults sample_store = [] /\
  exists row',
    result (run mem_handler (updateCampaign "cmp-1" (<["name" := VStr "Winter menu"]> ∅))
              sample_store) = Returned row' /\
    row' !! "name" = Some (VStr "Winter menu") /\
    row' !! "status" = Some (VStr "draft").
Proof.
  assert (Hq : faults sample_store = []) by reflexivity.
  split; [exact Hq|].
  destruct (update_merges_patch sample_store "cmp-1" (<["name" := VStr "Winter menu"]> ∅)
              sample_campaign Hq)
    as (row' & entry & Hres & Hin & Hout & _); [vm_compute; reflexivity|].
  exists row'. split; [exact Hres|]. split; [by apply Hin|].
  rewrite Hout by done. vm_compute. reflexivity.
Defined.

(** ** Reading back what was written *)

Lemma project_all (s : store) (row : obj) : project s "*" row = row.
Proof. reflexivity. Qed.

Lemma project_all_rows (s : store) (rows : list obj) : project s "*" <$> rows = rows.
Proof. induction rows as [|r rows IH]; [done|]; cbn. by rewrite IH. Qed.

Lemma project_tag (s : store) (row : obj) :
  project s "customer_tags(*)" row
  = <["customer_tags" :=
        match str_member "tag_id" row with
        | Some tag_id =>
            match List.filter (matches [("id", tag_id)]) (rows_of "customer_tags" s) with
            | tag :: _ => VObj tag
            | [] => VNull
            end
        | None => VNull
        end]> ∅.
Proof. reflexivity. Qed.

Lemma project_tag_other_table (s : store) (t : string) (rows : list obj) (row : obj) :
  t <> "customer_tags" ->
  project (with_rows t rows s) "customer_tags(*)" row = project s "customer_tags(*)" row.
Proof. intros Ht. by rewrite !project_tag, rows_of_with_rows_ne. Qed.

Lemma project_tag_rows_other_table (s : store) (t : string) (rows l : list obj) :
  t <> "customer_tags" ->
  project (with_rows t rows s) "customer_tags(*)" <$> l
  = project s "customer_tags(*)" <$> l.
Proof.
  intros Ht. induction l as [|r l IH]; [done|]; cbn [fmap list_fmap].
  fold (fmap (M := list) (project (with_rows t rows s) "customer_tags(*)") l).
  fold (fmap (M := list) (project s "customer_tags(*)") l).
  by rewrite IH, project_tag_other_table.
Qed.

Lemma filter_none_rest {A} (p : A -> bool) (l : list A) :
  List.filter p l = [] -> List.filter (fun x => negb (p x)) l = l.
Proof.
  induction l as [|x l IH]; [done|]; cbn.
  destruct (p x); [done|]. cbn. intros H. by rewrite IH.
Qed.

Lemma assign_then_list (s : store) (customerId tagId : string)
    (tag : obj) (more : list obj) :
  let before := run mem_handler (getCustomerTags customerId) s in
  let assign := run mem_handler (assignTagToCustomer customerId tagId) s in
  let after := run mem_handler (getCustomerTags customerId) (final assign) in
  faults s = [] ->
  List.filter (matches [("id", tagId)]) (rows_of "customer_tags" s) = tag :: more ->
  exists tags,
    result before = Returned tags /\
    result assign = Returned tt /\
    result after = Returned (tags ++ [Some (VObj tag)]).
Proof.
  intros before assign after Hq Htag. subst before assign after.
  cbn. quiet Hq. quiet Hq. quiet Hq.
  eexists. split; [reflexivity|]. split; [reflexivity|].
  rewrite rows_of_with_rows_eq, filter_snoc.
  rewrite project_tag_rows_other_table by done.
  assert (Hc : str_member "customer_id"
                 (<["customer_id" := VStr customerId]> (<["tag_id" := VStr tagId]> ∅)
                  ∪ server_defaults "customer_tag_assignments" s) = Some customerId)
    by (apply str_member_union_present; unfold str_member; by simplify_map_eq).
  assert (Ht : str_member "tag_id"
                 (<["customer_id" := VStr customerId]> (<["tag_id" := VStr tagId]> ∅)
                  ∪ server_defaults "customer_tag_assignments" s) = Some tagId)
    by (apply str_member_union_present; unfold str_member; by simplify_map_eq).
  unfold matches at 2. cbn [forallb fst snd]. rewrite Hc.
  rewrite bool_decide_eq_true_2 by done. cbn [andb].
  rewrite fmap_app, map_app. f_equal. f_equal. cbn [fmap list_fmap map].
  rewrite project_tag, Ht, Htag. by rewrite lookup_insert_eq.
Qed.

(** X9: assigning a tag that exists to a customer, on a store that
    answers, adds exactly that tag at the end of what [getCustomerTags]
    returns for the customer. *)
Theorem assigned_tag_is_listed (s : store) (customerId tagId : string)
    (tag : obj) (more : list obj) :
  let before := run mem_handler (getCustomerTags customerId) s in
  let assign := run mem_handler (assignTagToCustomer customerId tagId) s in
  let after := run mem_handler (getCustomerTags customerId) (final assign) in
  faults s = [] ->
  List.filter (matches [("id", tagId)]) (rows_of "customer_tags" s) = tag :: more ->
  exists tags,
    result before = Returned tags /\
    result assign = Returned tt /\
    result after = Returned (tags ++ [Some (VObj tag)]).
Proof. apply assign_then_list. Qed.

Lemma assigned_tag_is_listed_witness :
  faults tagged_store = [] /\
  result (run mem_handler (getCustomerTags "cust-7")
            (final (run mem_handler (assignTagToCustomer "cust-7" "tag-1") tagged_store)))
  = Returned ([] ++ [Some (VObj vip_tag)]).
Proof.
  assert (Hq : faults tagged_store = []) by reflexivity.
  split; [exact Hq|].
  destruct (assigned_tag_is_listed tagged_store "cust-7" "tag-1" vip_tag [] Hq)
    as (tags & Hbefore & _ & Hafter); [vm_compute; reflexivity|].
  assert (Ht : tags = []) by (vm_compute in Hbefore; congruence).
  subst tags. exact Hafter.
Defined.

(** X10: removing a tag from a customer, on a store that answers, deletes
    every assignment of that tag to that customer and nothing else: no row
    of the pair is left, the other assignments (other customers, other
    tags) stay in place and in order, and the tags themselves are not
    touched.  Removing right after assigning a pair that was not assigned
    before gives back the assignments as they were. *)
Theorem removed_pair_is_gone (s : store) (customerId tagId : string) :
  let remove := run mem_handler (removeTagFromCustomer customerId tagId) s in
  let assign := run mem_handler (assignTagToCustomer customerId tagId) s in
  let undo := run mem_handler (removeTagFromCustomer customerId tagId) (final assign) in
  let pair := assignment_pair customerId tagId in
  faults s = [] ->
  result remove = Returned tt /\
  List.filter (matches pair) (rows_of "customer_tag_assignments" (final remove)) = [] /\
  List.filter (fun r => negb (matches pair r))
    (rows_of "customer_tag_assignments" (final remove))
  = List.filter (fun r => negb (matches pair r)) (rows_of "customer_tag_assignments" s) /\
  rows_of "customer_tags" (final remove) = rows_of "customer_tags" s /\
  (List.filter (matches pair) (rows_of "customer_tag_assignments" s) = [] ->
   rows_of "customer_tag_assignments" (final undo)
   = rows_of "customer_tag_assignments" s).
Proof.
  intros remove assign undo pair Hq. subst remove assign undo pair.
  cbn. repeat (rewrite (mem_query_quiet _ s Hq); cbn). quiet Hq.
  fold (assignment_pair customerId tagId).
  rewrite !rows_of_with_rows_eq.
  rewrite (rows_of_with_rows_ne "customer_tag_assignments" "customer_tags") by done.
  repeat split.
  - apply (filter_rejected_none (matches (assignment_pair customerId tagId))).
  - induction (rows_of "customer_tag_assignments" s) as [|r l IH]; [done|]; cbn.
    destruct (matches (assignment_pair customerId tagId) r) eqn:E; cbn; [done|].
    rewrite E. cbn. by rewrite IH.
  - intros Hnone. rewrite List.filter_app, (filter_none_rest _ _ Hnone). cbn.
    assert (Hm : matches (assignment_pair customerId tagId)
                   (<["customer_id" := VStr customerId]> (<["tag_id" := VStr tagId]> ∅)
                    ∪ server_defaults "customer_tag_assignments" s) = true).
    { unfold matches, assignment_pair. cbn [forallb fst snd].
      rewrite (str_member_union_present "customer_id" customerId)
        by (unfold str_member; by simplify_map_eq).
      rewrite (str_member_union_present "tag_id" tagId)
        by (unfold str_member; by simplify_map_eq).
      by rewrite !bool_decide_eq_true_2. }
    rewrite Hm. cbn. by rewrite app_nil_r.
Qed.

Lemma removed_pair_is_gone_witness :
  faults tagged_store = [] /\
  result (run mem_handler (getCustomerTags "cust-1")
            (final (run mem_handler (removeTagFromCustomer "cust-1" "tag-9") tagged_store)))
  = Returned [Some (VObj vip_tag)] /\
  List.filter (matches (assignment_pair "cust-1" "tag-9"))
    (rows_of "customer_tag_assignments"
       (final (run mem_handler (removeTagFromCustomer "cust-1" "tag-9") tagged_store)))
  = [].
Proof.
  assert (Hq : faults tagged_store = []) by reflexivity.
  split; [exact Hq|]. split; [vm_compute; reflexivity|].
  exact (proj1 (proj2 (removed_pair_is_gone tagged_store "cust-1" "tag-9" Hq))).
Defined.



Lemma create_on_answering_store (s : store) (campaign : obj) :
  let e := run mem_handler (createCampaign campaign) s in
  faults s = [] ->
  exists row,
    result e = Returned row /\
    rows_of "campaigns" (final e) = rows_of "campaigns" s ++ [row] /\
    faults (final e) = [].
Proof.
  intros e Hq. subst e. cbn. quiet Hq. quiet Hq. quiet Hq.
  eexists. split; [reflexivity|]. split; [|exact Hq].
  rewrite (rows_of_with_rows_ne "campaign_audit_log" "campaigns") by done.
  by rewrite rows_of_with_rows_eq.
Qed.

(** X12: a campaign can be fetched once created: when [createCampaign]
    returned a row whose id is a text that no campaign had before, on a
    store that answers, [getCampaign] for that id returns that row. *)
Theorem created_campaign_is_fetched (s : store) (campaign row : obj) (id : string) :
  let created := run mem_handler (createCampaign campaign) s in
  let fetched := run mem_handler (getCampaign id) (final created) in
  faults s = [] ->
  result created = Returned row ->
  str_member "id" row = Some id ->
  List.filter (matches [("id", id)]) (rows_of "campaigns" s) = [] ->
  result fetched = Returned (Some row).
Proof.
  intros created fetched Hq Hres Hid Hnone. subst created fetched.
  destruct (create_on_answering_store s campaign Hq) as (row' & Hres' & Hrows & Hq').
  set (w := run mem_handler (createCampaign campaign) s) in *. clearbody w.
  assert (row' = row) as -> by congruence.
  cbn. quiet Hq'. rewrite Hrows, filter_snoc, Hnone.
  unfold matches at 1. cbn [forallb fst snd]. rewrite Hid.
  rewrite bool_decide_eq_true_2 by done. reflexivity.
Qed.

Lemma created_campaign_is_fetched_witness :
  faults sample_store = [] /\
  exists row,
    result (run mem_handler (createCampaign (<["name" := VStr "Autumn menu"]> ∅)) sample_store)
    = Returned row /\
    result (run mem_handler (getCampaign "id-100")
              (final (run mem_handler (createCampaign (<["name" := VStr "Autumn menu"]> ∅))
                        sample_store)))
    = Returned (Some row).
Proof.
  assert (Hq : faults sample_store = []) by reflexivity.
  split; [exact Hq|].
  remember (result (run mem_handler (createCampaign (<["name" := VStr "Autumn menu"]> ∅))
                      sample_store)) as r eqn:Hr.
  assert (Hret : returned r = true) by (subst r; vm_compute; reflexivity).
  destruct r as [row|x]; [|discriminate].
  exists row. split; [reflexivity|].
  apply (created_campaign_is_fetched sample_store (<["name" := VStr "Autumn menu"]> ∅)
           row "id-100" Hq (eq_sym Hr)); [|vm_compute; reflexivity].
  vm_compute in Hr. injection Hr as ->. vm_compute. reflexivity.
Defined.

(** X13: a message can be listed once created: on a store that answers,
    [createCampaignMessage] returns a row that holds every member of the
    object passed, and [getCampaignMessages] for the campaign the message
    names then returns the earlier messages followed by that row, while
    the listing of any other campaign is unchanged. *)
Theorem created_message_is_listed (s : store) (message : obj) (campaignId : string) :
  let before := run mem_handler (getCampaignMessages campaignId) s in
  let created := run mem_handler (createCampaignMessage message) s in
  let after := run mem_handler (getCampaignMessages campaignId) (final created) in
  faults s = [] ->
  exists msgs row,
    result before = Returned msgs /\
    result created = Returned row /\
    (forall k v, message !! k = Some v -> row !! k = Some v) /\
    (str_member "campaign_id" message = Some campaignId ->
     result after = Returned (msgs ++ [row])) /\
    (str_member "campaign_id" row <> Some campaignId ->
     result after = Returned msgs).
Proof.
  intros before created after Hq. subst before created after.
  cbn. repeat (rewrite (mem_query_quiet _ s Hq); cbn). quiet Hq.
  do 2 eexists. split; [reflexivity|]. split; [reflexivity|].
  rewrite rows_of_with_rows_eq, filter_snoc, !project_all_rows.
  split; [|split].
  - intros k v Hk. by apply lookup_union_Some_l.
  - intros Hc. unfold matches at 2. cbn [forallb fst snd].
    rewrite (str_member_union_present _ _ _ _ Hc).
    by rewrite bool_decide_eq_true_2.
  - intros Hc. unfold matches at 2. cbn [forallb fst snd].
    rewrite bool_decide_eq_false_2 by done. cbn. by rewrite app_nil_r.
Qed.

Lemma created_message_is_listed_witness :
  faults sample_store = [] /\
  exists row,
    result (run mem_handler (getCampaignMessages "cmp-1")
              (final (run mem_handler
                        (createCampaignMessage
                           (<["campaign_id" := VStr "cmp-1"]>
                              (<["message_template" := VStr "Bye {{customer_name}}"]> ∅)))
                        sample_store)))
    = Returned ([sample_message] ++ [row]) /\
    row !! "message_template" = Some (VStr "Bye {{customer_name}}").
Proof.
  assert (Hq : faults sample_store = []) by reflexivity.
  split; [exact Hq|].
  destruct (created_message_is_listed sample_store
              (<["campaign_id" := VStr "cmp-1"]>
                 (<["message_template" := VStr "Bye {{customer_name}}"]> ∅))
              "cmp-1" Hq)
    as (msgs & row & Hbefore & _ & Hkeep & Hafter & _).
  assert (Hm : Returned msgs = Returned [sample_message])
    by (rewrite <- Hbefore; vm_compute; reflexivity).
  injection Hm as ->. exists row. split; [apply Hafter; vm_compute; reflexivity|].
  apply Hkeep. vm_compute. reflexivity.
Defined.

(** X14: the writes outside the campaign lifecycle leave no audit trail:
    creating or updating a message, creating a promo code or a tag,
    assigning or removing a tag and updating a consent each await a single
    call, with no identity lookup and no insert into the audit log,
    whatever the backend answers; and on the data store the audit log is
    the same after each of them as before. *)
Theorem other_writes_are_not_audited {S} (h : handler S) (s0 : S) (s : store)
    (row patch : obj) (id customerId tagId restaurantId : string) :
  (one_plain_call h (createCampaignMessage row) s0 /\
   one_plain_call h (updateCampaignMessage id patch) s0 /\
   one_plain_call h (createPromoCode row) s0 /\
   one_plain_call h (createCustomerTag row) s0 /\
   one_plain_call h (assignTagToCustomer customerId tagId) s0 /\
   one_plain_call h (removeTagFromCustomer customerId tagId) s0 /\
   one_plain_call h (updateCustomerConsent customerId restaurantId patch) s0) /\
  (keeps_audit_log (createCampaignMessage row) s /\
   keeps_audit_log (updateCampaignMessage id patch) s /\
   keeps_audit_log (createPromoCode row) s /\
   keeps_audit_log (createCustomerTag row) s /\
   keeps_audit_log (assignTagToCustomer customerId tagId) s /\
   keeps_audit_log (removeTagFromCustomer customerId tagId) s /\
   keeps_audit_log (updateCustomerConsent customerId restaurantId patch) s).
Proof.
  split.
  - unfold one_plain_call, calls. repeat split; cbn; answer h; eexists; split; reflexivity.
  - unfold keeps_audit_log. repeat split; cbn; unfold mem_handler;
      destruct (faults s) as [|[msg|] later]; cbn; try reflexivity.
    all: repeat match goal with
         | |- context [match ?x with _ => _ end] => destruct x eqn:?; cbn
         end.
    all: try reflexivity.
    all: by rewrite rows_of_with_rows_ne.
Qed.

(** X15: the single-row lookups treat a missing row as a result, not as
    an error: on a store that answers, [getCampaign], [getCampaignMetrics]
    and [getCustomerConsent] return the not-present value when no row
    passes their filters and the row when exactly one does, and they leave
    every table as it was. *)
Theorem missing_row_is_not_an_error (s : store) (campaignId customerId restaurantId : string) :
  let by_id := List.filter (matches [("id", campaignId)]) (rows_of "campaigns" s) in
  let metrics := List.filter (matches [("campaign_id", campaignId)])
                   (rows_of "campaign_metrics" s) in
  let consent := List.filter (matches (consent_pair customerId restaurantId))
                   (rows_of "customer_consent" s) in
  faults s = [] ->
  ((by_id = [] -> result (run mem_handler (getCampaign campaignId) s) = Returned None) /\
   (forall row, by_id = [row] ->
                result (run mem_handler (getCampaign campaignId) s) = Returned (Some row)) /\
   tables (final (run mem_handler (getCampaign campaignId) s)) = tables s) /\
  ((metrics = [] ->
    result (run mem_handler (getCampaignMetrics campaignId) s) = Returned None) /\
   (forall row, metrics = [row] ->
                result (run mem_handler (getCampaignMetrics campaignId) s)
                = Returned (Some row)) /\
   tables (final (run mem_handler (getCampaignMetrics campaignId) s)) = tables s) /\
  ((consent = [] ->
    result (run mem_handler (getCustomerConsent customerId restaurantId) s)
    = Returned None) /\
   (forall row, consent = [row] ->
                result (run mem_handler (getCustomerConsent customerId restaurantId) s)
                = Returned (Some row)) /\
   tables (final (run mem_handler (getCustomerConsent customerId restaurantId) s))
   = tables s).
Proof.
  intros by_id metrics consent Hq. subst by_id metrics consent.
  cbn. repeat (rewrite (mem_query_quiet _ s Hq); cbn).
  rewrite !project_all_rows. fold (consent_pair customerId restaurantId).
  repeat split; intros.
  all: try (match goal with H : List.filter _ _ = _ |- _ => rewrite H end; reflexivity).
  all: match goal with
       | |- context [match ?l with [] => _ | _ => _ end] =>
           destruct l as [|? [|? ?]]; reflexivity
       end.
Qed.

Lemma missing_row_is_not_an_error_witness :
  faults sample_store = [] /\
  result (run mem_handler (getCampaign "cmp-404") sample_store) = Returned None /\
  result (run mem_handler (getCampaign "cmp-1") sample_store)
  = Returned (Some sample_campaign).
Proof.
  assert (Hq : faults sample_store = []) by reflexivity.
  split; [exact Hq|].
  split.
  - apply (proj1 (missing_row_is_not_an_error sample_store "cmp-404" "cust-1" "rest-1" Hq)).
    vm_compute. reflexivity.
  - apply (proj1 (missing_row_is_not_an_error sample_store "cmp-1" "cust-1" "rest-1" Hq)).
    vm_compute. reflexivity.
Defined.

(** X16: [deleteCampaign] on a store that answers returns normally
    whether or not the campaign exists; afterwards [getCampaign] for the
    id returns the not-present value, the other campaigns are where they
    were, and when no campaign had the id the table is unchanged. *)
Theorem deleted_campaign_is_absent (s : store) (campaignId : string) :
  let deleted := run mem_handler (deleteCampaign campaignId) s in
  let fetched := run mem_handler (getCampaign campaignId) (final deleted) in
  faults s = [] ->
  result deleted = Returned tt /\
  result fetched = Returned None /\
  rows_of "campaigns" (final deleted)
  = List.filter (fun r => negb (matches [("id", campaignId)] r)) (rows_of "campaigns" s) /\
  (List.filter (matches [("id", campaignId)]) (rows_of "campaigns" s) = [] ->
   rows_of "campaigns" (final deleted) = rows_of "campaigns" s).
Proof.
  intros deleted fetched Hq. subst deleted fetched.
  cbn. quiet Hq. quiet Hq.
  rewrite rows_of_with_rows_eq, project_all_rows.
  rewrite (filter_rejected_none (matches [("id", campaignId)])).
  repeat split. intros Hnone. by apply filter_none_rest.
Qed.

Lemma deleted_campaign_is_absent_witness :
  faults sample_store = [] /\
  result (run mem_handler (getCampaign "cmp-1")
            (final (run mem_handler (deleteCampaign "cmp-1") sample_store)))
  = Returned None /\
  result (run mem_handler (deleteCampaign "cmp-404") sample_store) = Returned tt.
Proof.
  assert (Hq : faults sample_store = []) by reflexivity.
  split; [exact Hq|]. split.
  - exact (proj1 (proj2 (deleted_campaign_is_absent sample_store "cmp-1" Hq))).
  - exact (proj1 (deleted_campaign_is_absent sample_store "cmp-404" Hq)).
Defined.

Lemma create_tag_on_answering_store (s : store) (tag : obj) :
  let e := run mem_handler (createCustomerTag tag) s in
  faults s = [] ->
  exists row,
    result e = Returned row /\
    rows_of "customer_tags" (final e) = rows_of "customer_tags" s ++ [row] /\
    (forall k v, tag !! k = Some v -> row !! k = Some v) /\
    faults (final e) = [].
Proof.
  intros e Hq. subst e. cbn. quiet Hq.
  eexists. split; [reflexivity|]. split; [by rewrite rows_of_with_rows_eq|].
  split; [|exact Hq]. intros k v Hk. by apply lookup_union_Some_l.
Qed.

(** X17: a tag can be used once created: when [createCustomerTag]
    returned a row whose id is a text that no tag had before, on a store
    that answers, assigning that id to a customer makes
    [getCustomerTags] return the customer's earlier tags followed by the
    created row, which holds every member of the object passed. *)
Theorem created_tag_can_be_assigned (s : store) (tag row : obj)
    (customerId tagId : string) :
  let created := run mem_handler (createCustomerTag tag) s in
  let before := run mem_handler (getCustomerTags customerId) (final created) in
  let assign := run mem_handler (assignTagToCustomer customerId tagId) (final created) in
  let after := run mem_handler (getCustomerTags customerId) (final assign) in
  faults s = [] ->
  result created = Returned row ->
  str_member "id" row = Some tagId ->
  List.filter (matches [("id", tagId)]) (rows_of "customer_tags" s) = [] ->
  (forall k v, tag !! k = Some v -> row !! k = Some v) /\
  exists tags,
    result before = Returned tags /\
    result after = Returned (tags ++ [Some (VObj row)]).
Proof.
  intros created before assign after Hq Hres Hid Hnone.
  subst created before assign after.
  destruct (create_tag_on_answering_store s tag Hq) as (row' & Hres' & Hrows & Hkeep & Hq').
  set (w := run mem_handler (createCustomerTag tag) s) in *. clearbody w.
  assert (row' = row) as -> by congruence.
  split; [exact Hkeep|].
  destruct (assign_then_list (final w) customerId tagId row [] Hq') as (tags & Hb & _ & Ha).
  - rewrite Hrows, filter_snoc, Hnone.
    unfold matches at 1. cbn [forallb fst snd]. rewrite Hid.
    by rewrite bool_decide_eq_true_2.
  - by exists tags.
Qed.

Lemma created_tag_can_be_assigned_witness :
  faults sample_store = [] /\
  exists row,
    result (run mem_handler (createCustomerTag (<["name" := VStr "Regular"]> ∅)) sample_store)
    = Returned row /\
    row !! "name" = Some (VStr "Regular") /\
    result (run mem_handler (getCustomerTags "cust-1")
              (final (run mem_handler (assignTagToCustomer "cust-1" "id-100")
                        (final (run mem_handler
                                  (createCustomerTag (<["name" := VStr "Regular"]> ∅))
                                  sample_store)))))
    = Returned ([] ++ [Some (VObj row)]).
Proof.
  assert (Hq : faults sample_store = []) by reflexivity.
  split; [exact Hq|].
  remember (result (run mem_handler (createCustomerTag (<["name" := VStr "Regular"]> ∅))
                      sample_store)) as r eqn:Hr.
  assert (Hret : returned r = true) by (subst r; vm_compute; reflexivity).
  destruct r as [row|x]; [|discriminate].
  exists row. split; [reflexivity|].
  destruct (created_tag_can_be_assigned sample_store (<["name" := VStr "Regular"]> ∅)
              row "cust-1" "id-100" Hq (eq_sym Hr))
    as (Hkeep & tags & Hb & Ha).
  - vm_compute in Hr. injection Hr as ->. vm_compute. reflexivity.
  - vm_compute. reflexivity.
  - split; [apply Hkeep; vm_compute; reflexivity|].
    assert (Ht : Returned tags = Returned (@nil (option value))).
    { rewrite <- Hb. vm_compute. reflexivity. }
    injection Ht as ->. exact Ha.
Defined.
